(** * Bulk record enumeration and deletion engine (deleter/core.py)

    A shallow embedding of [HubSpotDeleter]: the two enumerators
    ([_get_all_records_by_type], [_search_records] with
    [_process_search_batch]), the batch deleter ([_delete_records]) and
    the orchestrating entry points, over an abstract remote data client.

    Conventions of the embedding:
    - the remote client is an interface ([HubspotClient]); every call the
      engine issues is appended, with its reply, to a log, so that "which
      requests were issued" is a statement about a value;
    - Python exceptions are the [Raise] outcome of a state-and-error monad;
    - the [while] loops of the engine take a fuel argument; running out
      of fuel is the separate outcome [OutOfFuel], never confused with a
      normal return;
    - logging and [time.sleep] pacing have no effect on any value and are
      left out. *)

From Stdlib Require Import ZArith List Ascii String Decimal DecimalString
  DecimalPos DecimalZ Lia.
From stdpp Require Import base option list gmap strings.

Local Open Scope string_scope.
Local Open Scope list_scope.
Local Open Scope Z_scope.

(** ** Python built-ins used by the engine *)

Module Py.

(** [str(n)] for an [int]: shortest decimal form, [-] for negatives. *)
Definition str (z : Z) : string := NilEmpty.string_of_int (Z.to_int z).

(** Whitespace skipped by [int()] at both ends of an ASCII literal: the
    space and the control characters tab, line feed, vertical tab, form
    feed and carriage return. *)
Definition is_space (c : ascii) : bool :=
  let n := nat_of_ascii c in
  ((n =? 32) || ((9 <=? n) && (n <=? 13)))%nat.

Definition digit_of (c : ascii) : option Z :=
  let n := nat_of_ascii c in
  if ((48 <=? n) && (n <=? 57))%nat then Some (Z.of_nat (n - 48)) else None.

Fixpoint drop_spaces (l : list ascii) : list ascii :=
  match l with
  | c :: l' => if is_space c then drop_spaces l' else l
  | [] => []
  end.

Definition strip (l : list ascii) : list ascii :=
  rev (drop_spaces (rev (drop_spaces l))).

(** Base-10 digits; a single underscore is allowed between two digits. *)
Fixpoint parse_digits (acc : Z) (after_digit : bool) (l : list ascii)
  : option Z :=
  match l with
  | [] => if after_digit then Some acc else None
  | c :: l' =>
      match digit_of c with
      | Some d => parse_digits (10 * acc + d) true l'
      | None =>
          if Ascii.eqb c "_" && after_digit
          then parse_digits acc false l' else None
      end
  end.

(** [int(s)] for a [str]: [None] stands for the [ValueError] Python raises.
    The ASCII grammar of the built-in is followed (surrounding whitespace,
    optional sign, digits with single underscores). Two things are
    outside the model: digits and spaces outside ASCII, which the built-in
    accepts, and the interpreter's configurable ceiling on the number of
    digits (4300 by default), above which the built-in raises. *)
Definition int_of_str (s : string) : option Z :=
  match strip (list_ascii_of_string s) with
  | c :: l =>
      if Ascii.eqb c "-" then Z.opp <$> parse_digits 0 false l
      else if Ascii.eqb c "+" then parse_digits 0 false l
      else parse_digits 0 false (c :: l)
  | [] => None
  end.

(** Truth value of an optional string ([None] and [""] are falsy). *)
Definition truthy (o : option string) : bool :=
  match o with
  | Some s => negb (String.eqb s "")
  | None => false
  end.

(** [range(0, n, step)] for a positive [step]. *)
Definition range_step (n step : nat) : list nat :=
  (fun k => k * step)%nat <$> seq 0 (Nat.div (n + step - 1) step).

(** [l[i:i+n]] *)
Definition slice {A} (l : list A) (i n : nat) : list A := take n (drop i l).

End Py.

(** ** Data model *)

(** Error categories of the remote data client; all of them are
    [HubspotError] for the engine's [except] clauses. *)
Inductive RemoteError :=
| TransportError
| ClientError (status : Z)
| RateLimitError (retry_after : option Z)
| DuplicateError
| ServerError (status : Z).

Inductive exn :=
| HubspotError (e : RemoteError)
| ValueError
| TypeError
| AttributeError
| KeyError
| OSError
| UnicodeDecodeError
| CsvError.

(** A record as the store returns it; only its ["id"] entry is read. *)
Record RawRecord := { raw_id : option string }.

(** [{"id": ...}], the reference the engine queues for deletion. *)
Record RecordRef := { id : option string }.

Record Filter := {
  propertyName : string;
  operator : string;
  value : option string
}.

Record SearchPayload := {
  filters : list Filter;          (* filterGroups[0].filters *)
  sorts : list (string * string); (* propertyName, direction *)
  limit : Z;
  after : option string
}.

(** The keys of a JSON reply that the engine reads. *)
Record Response := {
  total : option Z;                 (* "total" *)
  results : list RawRecord;         (* "results" *)
  paging_next_after : option string (* paging.next.after *)
}.

Inductive Call :=
| Get (endpoint : string) (limit_param : Z) (after_param : option string)
| PostSearch (endpoint : string) (payload : SearchPayload)
| PostArchive (endpoint : string) (inputs : list RecordRef)
| Delete (endpoint : string).

Definition Reply : Type := RemoteError + Response.

#[global] Instance RemoteError_eq_dec : EqDecision RemoteError.
Proof. solve_decision. Defined.
#[global] Instance exn_eq_dec : EqDecision exn.
Proof. solve_decision. Defined.
#[global] Instance RawRecord_eq_dec : EqDecision RawRecord.
Proof. solve_decision. Defined.
#[global] Instance RecordRef_eq_dec : EqDecision RecordRef.
Proof. solve_decision. Defined.

(** The remote data client: one request, one reply, and whatever the
    store remembers. *)
Class HubspotClient (W : Type) := request : Call -> W -> Reply * W.

(** ** The engine's effects *)

Inductive result (A : Type) :=
| Ok (a : A)
| Raise (e : exn)
| OutOfFuel.
Arguments Ok {A} a.
Arguments Raise {A} e.
Arguments OutOfFuel {A}.

Record St (W : Type) := mkSt {
  world : W;
  log : list (Call * Reply)
}.
Arguments mkSt {W} world log.
Arguments world {W} s.
Arguments log {W} s.

Definition M (W A : Type) : Type := St W -> result A * St W.

Definition ret {W A} (a : A) : M W A := fun s => (Ok a, s).

Definition raise {W A} (e : exn) : M W A := fun s => (Raise e, s).

Definition out_of_fuel {W A} : M W A := fun s => (OutOfFuel, s).

Definition bind {W A B} (m : M W A) (k : A -> M W B) : M W B :=
  fun s =>
    match m s with
    | (Ok a, s') => k a s'
    | (Raise e, s') => (Raise e, s')
    | (OutOfFuel, s') => (OutOfFuel, s')
    end.

Notation "x <- m ;; k" := (bind m (fun x => k))
  (at level 100, m at next level, right associativity).

(** [try: m except HubspotError as e: h e] *)
Definition try_except_HubspotError {W A} (m : M W A)
  (h : RemoteError -> M W A) : M W A :=
  fun s =>
    match m s with
    | (Raise (HubspotError e), s') => h e s'
    | r => r
    end.

(** [try: m except Exception: h] *)
Definition try_except_Exception {W A} (m : M W A) (h : exn -> M W A)
  : M W A :=
  fun s =>
    match m s with
    | (Raise e, s') => h e s'
    | r => r
    end.

(** One call of the client; the call and its reply are logged. *)
Definition call {W} `{HubspotClient W} (c : Call) : M W Response :=
  fun s =>
    let '(r, w) := request c (world s) in
    let s' := mkSt w (log s ++ [(c, r)]) in
    match r with
    | inl e => (Raise (HubspotError e), s')
    | inr resp => (Ok resp, s')
    end.

(** [int(x)] on the value of an ["id"] entry. *)
Definition int {W} (x : option string) : M W Z :=
  match x with
  | None => raise TypeError
  | Some s =>
      match Py.int_of_str s with
      | Some z => ret z
      | None => raise ValueError
      end
  end.

(** [f"{x}"] for the value of an ["id"] entry. *)
Definition fmt (x : option string) : string :=
  match x with
  | Some s => s
  | None => "None"
  end.

(** [for x in l: acc = f acc x], with the effects of [f]. *)
Fixpoint for_each {W A B} (f : B -> A -> M W B) (l : list A) (acc : B)
  : M W B :=
  match l with
  | [] => ret acc
  | x :: l' => acc' <- f acc x ;; for_each f l' acc'
  end.

(** ** Values the callers hand to the engine *)

(** What [delete_by_query] receives as [query]: the signature announces a
    [str], [_search_records] expects a list of filter dictionaries. *)
Inductive pyobj :=
| PyStr (s : string)
| PyList (l : list Filter).

(** A [datetime], through the two observations the engine makes of it:
    [tzinfo] ([None] when naive, else the UTC offset in seconds) and
    [int(ts.astimezone(timezone.utc).timestamp() * 1000)]. *)
Record datetime := {
  tzinfo : option Z;
  utc_timestamp : Z
}.

(** A CSV source as [csv.reader] yields it when the file is read to its
    end without error: the header row, then the data rows, each a list of
    cells. A reading that fails is a [CsvSource], below. *)
Definition CsvFile : Type := list (list string).

(** The pagination-depth ceiling of the search endpoint; the literal
    [10000] of [_process_search_batch]. *)
Definition LEG_CAP : Z := 10000.

Definition search_endpoint (object_type : string) : string :=
  "/crm/v3/objects/" +:+ object_type +:+ "/search".
Definition archive_endpoint (object_type : string) : string :=
  "/crm/v3/objects/" +:+ object_type +:+ "/batch/archive".
Definition record_endpoint (object_type : string) (r : RecordRef) : string :=
  "/crm/v3/objects/" +:+ object_type +:+ "/" +:+ fmt (id r).
Definition list_endpoint (object_type : string) : string :=
  "/crm/v3/objects/" +:+ object_type.

(** [len(l)] *)
Definition len {A} (l : list A) : Z := Z.of_nat (length l).

(** ** The engine *)

Section Engine.
Context {W : Type} `{HubspotClient W}.

Definition _get_all_object_types : list string :=
  ["contacts"; "companies"; "deals"; "tickets"; "notes"; "emails";
   "tasks"; "meetings"; "calls"].

Definition _get_custom_object_types : list string := [].

(** *** Full list enumerator *)

(** The [while True] loop of [_get_all_records_by_type]. The [try] of the
    source encloses the whole loop and [all_records] is appended to in
    place, so the [except HubspotError] clause (which only logs) falls
    through to [return all_records] with the records appended before the
    raise; the only raising operation of the body is [client.get]. *)
Fixpoint _get_all_records_by_type_loop (fuel : nat) (object_type : string)
  (all_records : list RecordRef) (after : option string)
  : M W (list RecordRef) :=
  match fuel with
  | O => out_of_fuel
  | S fuel' =>
      let endpoint := list_endpoint object_type in
      let after_param := if Py.truthy after then after else None in
      try_except_HubspotError
        (response <- call (Get endpoint 100 after_param) ;;
         let records := results response in
         let all_records :=
           all_records ++ ((fun record => {| id := raw_id record |}) <$> records) in
         let after := paging_next_after response in
         if negb (Py.truthy after) then ret all_records
         else _get_all_records_by_type_loop fuel' object_type all_records after)
        (fun e => ret all_records)
  end.

Definition _get_all_records_by_type (fuel : nat) (object_type : string)
  : M W (list RecordRef) :=
  _get_all_records_by_type_loop fuel object_type [] None.

(** *** Filtered search enumerator *)

Definition _add_id_threshold_filter (base_filters : pyobj) (threshold_id : Z)
  : M W (list Filter) :=
  match base_filters with
  | PyList l =>
      let current_filters := l in (* base_filters.copy() *)
      let id_filter := {| propertyName := "hs_object_id";
                          operator := "GT";
                          value := Some (Py.str threshold_id) |} in
      ret (current_filters ++ [id_filter])
  | PyStr _ => raise AttributeError (* a str has no copy() *)
  end.

Definition _create_search_payload (filters : list Filter) : SearchPayload :=
  {| filters := filters;
     sorts := [("hs_object_id", "ASCENDING")];
     limit := 200;
     after := None |}.

(** [for record in results: ...] of [_process_search_batch]. *)
Fixpoint append_page (results : list RawRecord)
  (batch_records : list RecordRef) (last_id : Z) : M W (list RecordRef * Z) :=
  match results with
  | [] => ret (batch_records, last_id)
  | record :: rest =>
      let record_id := raw_id record in
      let batch_records := batch_records ++ [{| id := record_id |}] in
      last_id <- int record_id ;;
      append_page rest batch_records last_id
  end.

(** [payload["after"] = after] *)
Definition set_after (payload : SearchPayload) (a : option string)
  : SearchPayload :=
  {| filters := filters payload; sorts := sorts payload;
     limit := limit payload; after := a |}.

(** The [while after] loop of [_process_search_batch]. *)
Fixpoint _process_search_batch_loop (fuel : nat) (object_type : string)
  (payload : SearchPayload) (batch_records : list RecordRef) (last_id : Z)
  (after : option string) : M W (list RecordRef * Z) :=
  if negb (Py.truthy after) then ret (batch_records, last_id)
  else
    match fuel with
    | O => out_of_fuel
    | S fuel' =>
        let payload := set_after payload after in
        response <- call (PostSearch (search_endpoint object_type) payload) ;;
        x <- append_page (results response) batch_records last_id ;;
        let '(batch_records, last_id) := x in
        let after := paging_next_after response in
        if LEG_CAP <=? len batch_records then ret (batch_records, last_id)
        else _process_search_batch_loop fuel' object_type payload
               batch_records last_id after
    end.

(** [request_payload] is the ["_request_payload"] entry that
    [_search_records] stores in the response before the call. *)
Definition _process_search_batch (fuel : nat) (object_type : string)
  (initial_response : Response) (request_payload : SearchPayload)
  : M W (list RecordRef * Z) :=
  x <- append_page (results initial_response) [] 0 ;;
  let '(batch_records, last_id) := x in
  let after := paging_next_after initial_response in
  _process_search_batch_loop fuel object_type request_payload
    batch_records last_id after.

Inductive loop_ctl := Break | Continue.

(** One iteration of the [while True] loop of [_search_records]. *)
Definition _search_records_leg (page_fuel : nat) (object_type : string)
  (filters : pyobj) (all_records : list RecordRef) (last_record_id : Z)
  : M W (loop_ctl * list RecordRef * Z) :=
  current_filters <- _add_id_threshold_filter filters last_record_id ;;
  let search_payload := _create_search_payload current_filters in
  try_except_HubspotError
    (response <-
       call (PostSearch (search_endpoint object_type) search_payload) ;;
     let total := default 0 (total response) in
     if total =? 0 then ret (Break, all_records, last_record_id)
     else
       x <- _process_search_batch page_fuel object_type response
              search_payload ;;
       let '(batch_records, last_id) := x in
       let all_records := all_records ++ batch_records in
       let last_record_id := last_id in
       if total <? 10000 then ret (Break, all_records, last_record_id)
       else ret (Continue, all_records, last_record_id))
    (fun e => raise (HubspotError e)).

Fixpoint _search_records_loop (fuel page_fuel : nat) (object_type : string)
  (filters : pyobj) (all_records : list RecordRef) (last_record_id : Z)
  : M W (list RecordRef) :=
  match fuel with
  | O => out_of_fuel
  | S fuel' =>
      x <- _search_records_leg page_fuel object_type filters all_records
             last_record_id ;;
      match x with
      | (Break, all_records, _) => ret all_records
      | (Continue, all_records, last_record_id) =>
          _search_records_loop fuel' page_fuel object_type filters
            all_records last_record_id
      end
  end.

Definition _search_records (fuel : nat) (object_type : string)
  (filters : pyobj) : M W (list RecordRef) :=
  _search_records_loop fuel fuel object_type filters [] 0.

Definition _build_date_filter (property_name : string) (timestamp : datetime)
  : M W Filter :=
  match tzinfo timestamp with
  | None => raise ValueError
  | Some _ =>
      let utc_timestamp := utc_timestamp timestamp in
      ret {| propertyName := property_name;
             operator := "GTE";
             value := Some (Py.str utc_timestamp) |}
  end.

Definition _build_property_exists_filter (property_name : string) : Filter :=
  {| propertyName := property_name;
     operator := "HAS_PROPERTY";
     value := None |}.

(** [if created_after:] holds for every [datetime] and fails for [None]. *)
Definition _get_records_by_date_criteria (fuel : nat) (object_type : string)
  (created_after modified_after : option datetime) : M W (list RecordRef) :=
  let filters : list Filter := [] in
  filters <-
    match created_after with
    | Some ts => f <- _build_date_filter "createdate" ts ;; ret (filters ++ [f])
    | None => ret filters
    end ;;
  filters <-
    match modified_after with
    | Some ts =>
        f <- _build_date_filter "lastmodifieddate" ts ;; ret (filters ++ [f])
    | None => ret filters
    end ;;
  match filters with
  | [] => ret []
  | _ => _search_records fuel object_type (PyList filters)
  end.

(** *** Batch deleter *)

(** [try: client.delete(...); deleted_count += 1 except Exception: log],
    the body of the per-record fallback loop. *)
Definition delete_one (object_type : string) (deleted_count : nat)
  (record : RecordRef) : M W nat :=
  try_except_Exception
    (_ <- call (Delete (record_endpoint object_type record)) ;;
     ret (deleted_count + 1)%nat)
    (fun individual_error => ret deleted_count).

(** The per-record fallback of [_delete_records]: [for record in batch]. *)
Definition delete_individually (object_type : string)
  (batch : list RecordRef) (deleted_count : nat) : M W nat :=
  for_each (delete_one object_type) batch deleted_count.

(** The body of the chunk loop of [_delete_records], for the chunk that
    starts at index [i]. *)
Definition delete_batch (object_type : string) (records : list RecordRef)
  (batch_size : nat) (deleted_count : nat) (i : nat) : M W nat :=
  let batch := Py.slice records i batch_size in
  let batch_ids := (fun record => {| id := id record |}) <$> batch in
  try_except_HubspotError
    (_ <- call (PostArchive (archive_endpoint object_type) batch_ids) ;;
     ret (deleted_count + length batch)%nat)
    (fun e => delete_individually object_type batch deleted_count).

Definition _delete_records (object_type : string) (records : list RecordRef)
  : M W nat :=
  let batch_size := 100%nat in
  for_each (delete_batch object_type records batch_size)
    (Py.range_step (length records) batch_size) 0%nat.

(** *** Orchestrator *)

Definition delete_objects_by_type (fuel : nat) (object_type : string)
  : M W nat :=
  records <- _get_all_records_by_type fuel object_type ;;
  deleted_count <- _delete_records object_type records ;;
  ret deleted_count.

Definition delete_all_records (fuel : nat) : M W (gmap string nat) :=
  let all_object_types := _get_all_object_types ++ _get_custom_object_types in
  for_each
    (fun (deletion_counts : gmap string nat) object_type =>
       count <- delete_objects_by_type fuel object_type ;;
       ret (<[object_type := count]> deletion_counts))
    all_object_types ∅.

Definition delete_by_date_criteria (fuel : nat)
  (created_after modified_after : option datetime)
  (object_types : option (list string)) : M W (gmap string nat) :=
  let all_object_types := _get_all_object_types ++ _get_custom_object_types in
  let object_types :=
    match object_types with
    | None => all_object_types
    | Some l => l
    end in
  for_each
    (fun (deletion_counts : gmap string nat) object_type =>
       records <- _get_records_by_date_criteria fuel object_type
                    created_after modified_after ;;
       count <- _delete_records object_type records ;;
       ret (<[object_type := count]> deletion_counts))
    object_types ∅.

Definition delete_by_query (fuel : nat) (object_type : string) (query : pyobj)
  : M W nat :=
  records <- _search_records fuel object_type query ;;
  deleted_count <- _delete_records object_type records ;;
  ret deleted_count.

Definition delete_by_property (fuel : nat) (object_type property_name : string)
  : M W nat :=
  let filters := [_build_property_exists_filter property_name] in
  records <- _search_records fuel object_type (PyList filters) ;;
  _delete_records object_type records.

(** *** Tabular source *)

(** The dictionary [csv.DictReader] builds for one data row: the cells
    zipped with the field names, [None] for the field names past the end
    of a short row. *)
Definition dict_row (fieldnames row : list string)
  : gmap string (option string) :=
  let d := fold_left (fun d kv => <[kv.1 := Some kv.2]> d)
             (zip fieldnames row) (∅ : gmap string (option string)) in
  fold_left (fun d k => <[k := None]> d) (drop (length row) fieldnames) d.

(** The rows [csv.DictReader] iterates over: blank lines are skipped. *)
Definition dict_rows (fieldnames : list string) (rows : list (list string))
  : list (gmap string (option string)) :=
  dict_row fieldnames <$> filter (fun row => row ≠ []) rows.

(** [row[key]] *)
Definition getitem (row : gmap string (option string)) (key : string)
  : M W (option string) :=
  match row !! key with
  | Some v => ret v
  | None => raise KeyError
  end.

(** [delete_from_csv] on a file that is read to its end without error
    ([Reading.delete_from_csv] adds the failures of the reading). The
    [except Exception] clause of the source logs and re-raises. *)
Definition delete_from_csv (object_type : string) (csv_file : CsvFile)
  (id_column : string) : M W nat :=
  match csv_file with
  | [] => raise TypeError (* reader.fieldnames is None *)
  | fieldnames :: rows =>
      if bool_decide (id_column ∈ fieldnames) then
        records <-
          for_each
            (fun records row =>
               v <- getitem row id_column ;;
               if Py.truthy v then ret (records ++ [{| id := v |}])
               else ret records)
            (dict_rows fieldnames rows) [] ;;
        _delete_records object_type records
      else raise ValueError
  end.

Definition _read_csv_records (csv_file : CsvFile) (id_column : string)
  : M W (gmap string (list RecordRef)) :=
  match csv_file with
  | [] => raise TypeError
  | fieldnames :: rows =>
      if bool_decide (id_column ∈ fieldnames) then
        let has_object_type := bool_decide ("object_type" ∈ fieldnames) in
        for_each
          (fun (records_by_type : gmap string (list RecordRef)) row =>
             record_id <- getitem row id_column ;;
             if negb (Py.truthy record_id) then ret records_by_type
             else
               object_type <-
                 (if has_object_type then
                    v <- getitem row "object_type" ;;
                    if Py.truthy v then ret (fmt v) else ret "contacts"
                  else ret "contacts") ;;
               let records_by_type :=
                 match records_by_type !! object_type with
                 | None => <[object_type := []]> records_by_type
                 | Some _ => records_by_type
                 end in
               ret (<[object_type :=
                        default [] (records_by_type !! object_type)
                        ++ [{| id := record_id |}]]> records_by_type))
          (dict_rows fieldnames rows) ∅
      else raise ValueError
  end.

End Engine.

(** *** Reading the tabular source *)

(** What the file behind the path gives when it is opened and read: the
    header and rows the reader delivers (none when [open()] or the read of
    the header fails, or when the file is empty), and the exception that
    ends the reading ([OSError] from [open()], a decoding error or
    [csv.Error] from the reader), if any. *)
Record CsvSource := {
  delivered : CsvFile;
  fault : option exn
}.

Module Reading.
Section Source.
Context {W : Type} `{HubspotClient W}.

(** The reader after the last row it delivers: the end of the file, or
    the exception that ends the reading. *)
Definition reader_end (fault : option exn) : M W unit :=
  match fault with
  | Some e => raise e
  | None => ret tt
  end.

(** [delete_from_csv] with the reading of the file: [open()], the read
    of the header behind [reader.fieldnames] and each step of
    [for row in reader] may raise; the [except Exception] clause logs and
    re-raises. *)
Definition delete_from_csv (object_type : string) (csv_file : CsvSource)
  (id_column : string) : M W nat :=
  match delivered csv_file with
  | [] =>
      u <- reader_end (fault csv_file) ;;
      raise TypeError (* reader.fieldnames is None *)
  | fieldnames :: rows =>
      if bool_decide (id_column ∈ fieldnames) then
        records <-
          for_each
            (fun records row =>
               v <- getitem row id_column ;;
               if Py.truthy v then ret (records ++ [{| id := v |}])
               else ret records)
            (dict_rows fieldnames rows) [] ;;
        u <- reader_end (fault csv_file) ;;
        _delete_records object_type records
      else raise ValueError
  end.

End Source.
End Reading.

(** ** Clients used to run the engine *)

(** A scripted client: the replies are consumed in order, whatever the
    request; an exhausted script answers with a transport error. *)
#[global] Instance script_client : HubspotClient (list Reply) :=
  fun _ script =>
    match script with
    | r :: script' => (r, script')
    | [] => (inl TransportError, [])
    end.

(** A stateless server: the reply is a function of the request. *)
#[global] Instance server_client : HubspotClient (Call -> Reply) :=
  fun c server => (server c, server).

Definition ok_response : Response :=
  {| total := None; results := []; paging_next_after := None |}.

Definition start {W} (w : W) : St W := mkSt w [].

(** ** Vocabulary of the statements *)

(** The object types a date-range call iterates over. *)
Definition processed_types (object_types : option (list string))
  : list string :=
  match object_types with
  | None => _get_all_object_types ++ _get_custom_object_types
  | Some l => l
  end.

(** A caller-supplied timestamp without timezone offset. *)
Definition naive (ts : option datetime) : Prop :=
  exists d, ts = Some d /\ tzinfo d = None.

(** 2024-03-01T00:00:00 read without any offset. *)
Definition naive_march_first : datetime :=
  {| tzinfo := None; utc_timestamp := 1709251200000 |}.

(** *** Traces of the batch deleter *)

Definition is_ok (r : Reply) : bool :=
  match r with
  | inr _ => true
  | inl _ => false
  end.

(** Number of successful replies. *)
Fixpoint successes (replies : list Reply) : nat :=
  match replies with
  | [] => 0
  | r :: replies' => ((if is_ok r then 1 else 0) + successes replies')%nat
  end.

(** One individual delete per record of the chunk, in order, each with the
    reply it received. *)
Definition individual_calls (object_type : string) (chunk : list RecordRef)
  (replies : list Reply) : list (Call * Reply) :=
  zip ((fun r => Delete (record_endpoint object_type r)) <$> chunk) replies.

(** What one chunk contributes to the log and to the confirmed count:
    either one successful bulk-archive call carrying the whole chunk, worth
    the chunk's size, or one failed bulk-archive call followed by one
    individual delete per record, worth the number of individual
    successes. *)
Inductive chunk_run (object_type : string) (chunk : list RecordRef)
  : list (Call * Reply) -> nat -> Prop :=
| bulk_confirmed resp :
    chunk_run object_type chunk
      [(PostArchive (archive_endpoint object_type) chunk, inr resp)]
      (length chunk)
| bulk_failed e replies :
    length replies = length chunk ->
    chunk_run object_type chunk
      ((PostArchive (archive_endpoint object_type) chunk, inl e)
         :: individual_calls object_type chunk replies)
      (successes replies).

(** The chunks are processed in order; traces concatenate, counts add. *)
Inductive chunks_run (object_type : string)
  : list (list RecordRef) -> list (Call * Reply) -> nat -> Prop :=
| chunks_done : chunks_run object_type [] [] 0
| chunks_next chunk chunks tr n tr' n' :
    chunk_run object_type chunk tr n ->
    chunks_run object_type chunks tr' n' ->
    chunks_run object_type (chunk :: chunks) (tr ++ tr') (n + n').

(** The integers [a], [a+1], ..., [a+n-1]. *)
Fixpoint ids_from (a : Z) (n : nat) : list Z :=
  match n with
  | O => []
  | S n' => a :: ids_from (a + 1) n'
  end.

(** References to the records with ids [a], [a+1], ..., [a+n-1]. *)
Definition refs_from (a : Z) (n : Z) : list RecordRef :=
  (fun i => {| id := Some (Py.str i) |}) <$> ids_from a (Z.to_nat n).

(** A store on which the bulk-archive call carrying record 101 fails, and
    so do the individual deletes of records 181 to 200. *)
Definition flaky_server : Call -> Reply :=
  fun c =>
    match c with
    | PostArchive _ inputs =>
        if bool_decide ({| id := Some "101" |} ∈ inputs)
        then inl (ServerError 500) else inr ok_response
    | Delete endpoint =>
        if bool_decide
             (endpoint ∈ (record_endpoint "contacts" <$> refs_from 181 20))
        then inl (ClientError 404) else inr ok_response
    | _ => inr ok_response
    end.


(** *** Tabular source *)

(** The record references [delete_from_csv] queues: one per row whose
    identifier cell is non-empty, in row order. *)
Definition csv_records (fieldnames : list string) (rows : list (list string))
  (id_column : string) : list RecordRef :=
  flat_map
    (fun row : gmap string (option string) =>
       match row !! id_column with
       | Some v => if Py.truthy v then [{| id := v |}] else []
       | None => []
       end)
    (dict_rows fieldnames rows).

(** Does the call delete record [r] as a record of type [object_type]? *)
Definition deletes_under (object_type : string) (r : RecordRef) (c : Call)
  : bool :=
  match c with
  | PostArchive endpoint inputs =>
      bool_decide (endpoint = archive_endpoint object_type)
      && bool_decide (r ∈ inputs)
  | Delete endpoint => bool_decide (endpoint = record_endpoint object_type r)
  | _ => false
  end.

Definition deleted_under (object_type : string) (r : RecordRef)
  (tr : list (Call * Reply)) : bool :=
  existsb (fun entry => deletes_under object_type r entry.1) tr.

(** A store that accepts everything. *)
Definition accepting_server : Call -> Reply := fun _ => inr ok_response.

(** A source with a category column: record 7 is marked as a company. *)
Definition csv_with_category : CsvFile :=
  [["hubspot_id"; "object_type"]; ["7"; "companies"]].


(** *** Traces of the enumerators *)

(** The references the engine builds from one page. *)
Definition page_refs (resp : Response) : list RecordRef :=
  (fun record => {| id := raw_id record |}) <$> results resp.

(** The references of all pages received in a trace, in order. *)
Definition collected (tr : list (Call * Reply)) : list RecordRef :=
  flat_map
    (fun entry : Call * Reply =>
       match entry.2 with
       | inr resp => page_refs resp
       | inl _ => []
       end) tr.

(** No call of the trace failed. *)
Definition all_ok (tr : list (Call * Reply)) : Prop :=
  Forall (fun entry : Call * Reply => is_ok entry.2 = true) tr.

(** How a classified remote error shows in the outcome of a computation
    that lets it through: either no call failed and the outcome is not
    such an error, or exactly the last call failed and its error is the
    outcome. *)
Definition propagates {A} (r : result A) (tr : list (Call * Reply)) : Prop :=
  (all_ok tr /\ forall e, r <> Raise (HubspotError e))
  \/ (exists before c e,
        tr = before ++ [(c, inl e)] /\ all_ok before
        /\ r = Raise (HubspotError e)).

(** A page of two records with a cursor to the next page. *)
Definition page_with_cursor : Response :=
  {| total := None;
     results := [{| raw_id := Some "1" |}; {| raw_id := Some "2" |}];
     paging_next_after := Some "2" |}.


(** A computation that lets classified remote errors through, and whose
    log only grows. *)
Definition strict {W A} (m : M W A) : Prop :=
  forall s, exists tr,
    log (m s).2 = log s ++ tr /\ propagates (m s).1 tr.

(** A search page of two records with a cursor to the next page. *)
Definition search_page_with_cursor : Response :=
  {| total := Some 3;
     results := [{| raw_id := Some "1" |}; {| raw_id := Some "2" |}];
     paging_next_after := Some "2" |}.


(** A response sequence whose second reply, the answer to the first
    pagination request of the first leg, is a rate-limit error. *)
Definition script_failing_pagination : list Reply :=
  [inr search_page_with_cursor; inl (RateLimitError (Some 10));
   inr search_page_with_cursor].

(** The first pagination request of the first leg of a search for contacts
    without caller predicates. *)
Definition first_pagination_call : Call :=
  PostSearch "/crm/v3/objects/contacts/search"
    {| filters := [{| propertyName := "hs_object_id"; operator := "GT";
                      value := Some "0" |}];
       sorts := [("hs_object_id", "ASCENDING")];
       limit := 200;
       after := Some "2" |}.


(** *** Traces of one leg of the search *)

(** The pagination requests of one leg, given the number [acc] of records
    accumulated so far and the cursor [cursor] of the page received last.
    Each request is issued only with a usable cursor and with fewer than
    [LEG_CAP] records accumulated; it is the leg's own payload with that
    cursor as ["after"]; after a failed request nothing follows. *)
Inductive drain (object_type : string) (payload : SearchPayload)
  : Z -> option string -> list (Call * Reply) -> Prop :=
| drain_stop acc cursor : drain object_type payload acc cursor []
| drain_failed acc cursor e :
    Py.truthy cursor = true ->
    acc < LEG_CAP ->
    drain object_type payload acc cursor
      [(PostSearch (search_endpoint object_type) (set_after payload cursor),
        inl e)]
| drain_page acc cursor resp tr :
    Py.truthy cursor = true ->
    acc < LEG_CAP ->
    drain object_type payload (acc + len (results resp))
      (paging_next_after resp) tr ->
    drain object_type payload acc cursor
      ((PostSearch (search_endpoint object_type) (set_after payload cursor),
        inr resp) :: tr).

(** The cursor of the page received last. *)
Fixpoint last_cursor (cursor : option string) (tr : list (Call * Reply))
  : option string :=
  match tr with
  | [] => cursor
  | (_, inr resp) :: tr' => last_cursor (paging_next_after resp) tr'
  | (_, inl _) :: tr' => last_cursor None tr'
  end.

(** The payload of the first leg of a search without caller predicates. *)
Definition first_leg_payload : SearchPayload :=
  _create_search_payload
    [{| propertyName := "hs_object_id"; operator := "GT";
        value := Some (Py.str 0) |}].


(** *** Legs of the search *)

(** The engine's own predicate [hs_object_id > threshold]. *)
Definition id_filter (threshold_id : Z) : Filter :=
  {| propertyName := "hs_object_id"; operator := "GT";
     value := Some (Py.str threshold_id) |}.

(** The first request of the leg that starts at [threshold_id]. *)
Definition leg_request (object_type : string) (caller_filters : list Filter)
  (threshold_id : Z) : Call :=
  PostSearch (search_endpoint object_type)
    (_create_search_payload (caller_filters ++ [id_filter threshold_id])).

(** [l] is the numeric id of the last record of a non-empty batch. *)
Definition is_last_id (b : list RecordRef) (l : Z) : Prop :=
  forall x, last b = Some x ->
    exists str, id x = Some str /\ Py.int_of_str str = Some l.

(** A store that reports 10000 matches and never returns a record. *)
Definition stuck_server : Call -> Reply :=
  fun _ => inr {| total := Some 10000; results := [];
                  paging_next_after := None |}.

(** A page that reports 3 matches, holds no record and carries a cursor. *)
Definition empty_page_with_cursor : Response :=
  {| total := Some 3; results := []; paging_next_after := Some "200" |}.

(** A page that reports 3 matches, holds no record and ends the leg. *)
Definition empty_last_page : Response :=
  {| total := Some 3; results := []; paging_next_after := None |}.

(** A response sequence whose first leg reports 3 matches and returns no
    record on either of its two pages. *)
Definition script_empty_pages : list Reply :=
  [inr empty_page_with_cursor; inr empty_last_page].


(** The characters of a decimal numeral. *)
Definition digits (d : Decimal.uint) : list ascii :=
  list_ascii_of_string (NilEmpty.string_of_uint d).

(** *** The synthetic store *)

(** Modelled from the spec: the synthetic store of the completeness
    property (section 8) is a test fixture, not part of the repository's
    sources. It holds [store_size] records with the ids 1, 2, ...,
    [store_size], all of which satisfy whatever predicates the caller
    supplies; it understands the predicate [hs_object_id GT v], returns the
    matching records by ascending id, [limit] per page, with the offset of
    the next page as cursor, and refuses to page past the depth ceiling
    [LEG_CAP] (section 4.2). The reported total is the number of matches,
    or that number capped at [LEG_CAP] when [caps_total] is set (the
    reading of the seam example of section 8). *)
Record SyntheticStore := {
  store_size : Z;
  caps_total : bool
}.

(** The meaning of one predicate for the record with id [i]. *)
Definition id_pred (f : Filter) : Z -> bool :=
  if String.eqb (propertyName f) "hs_object_id"
     && String.eqb (operator f) "GT"
  then
    match value f with
    | Some v =>
        match Py.int_of_str v with
        | Some t => fun i => t <? i
        | None => fun _ => false
        end
    | None => fun _ => false
    end
  else fun _ => true.

(** The ids of the records matching all predicates, ascending. *)
Definition matching (st : SyntheticStore) (fs : list Filter) : list Z :=
  let preds := id_pred <$> fs in
  List.filter (fun i => forallb (fun p => p i) preds)
    (ids_from 1 (Z.to_nat (store_size st))).

Definition raw_records (ids : list Z) : list RawRecord :=
  (fun i => {| raw_id := Some (Py.str i) |}) <$> ids.

Definition reported_total (st : SyntheticStore) (count : Z) : Z :=
  if caps_total st then Z.min count LEG_CAP else count.

Definition synthetic_search (st : SyntheticStore) (p : SearchPayload)
  : Reply :=
  match (match after p with
         | None => Some 0
         | Some a => Py.int_of_str a
         end) with
  | None => inl (ClientError 400)
  | Some offset =>
      if (offset <? 0) || (limit p <? 1) || (LEG_CAP <? offset + limit p)
         || negb (bool_decide (sorts p = [("hs_object_id", "ASCENDING")]))
      then inl (ClientError 400)
      else
        let ids := matching st (filters p) in
        let count := len ids in
        inr {| total := Some (reported_total st count);
               results :=
                 raw_records
                   (take (Z.to_nat (limit p)) (drop (Z.to_nat offset) ids));
               paging_next_after :=
                 if offset + limit p <? count
                 then Some (Py.str (offset + limit p)) else None |}
  end.

#[global] Instance synthetic_client : HubspotClient SyntheticStore :=
  fun c st =>
    (match c with
     | PostSearch _ p => synthetic_search st p
     | _ => inr ok_response
     end, st).

(** A predicate on creation dates, as a date-range call builds it. *)
Definition created_filter : Filter :=
  {| propertyName := "createdate"; operator := "GTE";
     value := Some "1709251200000" |}.

(** Caller predicates that say nothing about the record id. *)
Definition opaque (caller_filters : list Filter) : Prop :=
  Forall (fun f => propertyName f <> "hs_object_id") caller_filters.

(** The page the synthetic store returns at offset [o] of the leg that
    starts at threshold [t]. *)
Definition synthetic_page (st : SyntheticStore) (t o : Z) : Response :=
  {| total := Some (reported_total st (store_size st - t));
     results :=
       raw_records (seqZ (t + 1 + o) (Z.min 200 (store_size st - t - o)));
     paging_next_after :=
       if o + 200 <? store_size st - t then Some (Py.str (o + 200))
       else None |}.


#[global] Instance result_eq_dec {A} `{EqDecision A} : EqDecision (result A).
Proof. solve_decision. Defined.

(** Does the search, run on the synthetic store of [n] records, return
    exactly the references to the ids 1 to [n]? *)
Definition complete_on (n : Z) (caps : bool) : bool :=
  bool_decide
    ((_search_records 60 "contacts" (PyList [created_filter])
        (start {| store_size := n; caps_total := caps |})).1
     = Ok (refs_from 1 n)).


(** *** Counting the calls of a trace *)

Definition is_bulk_call (entry : Call * Reply) : bool :=
  match entry.1 with
  | PostArchive _ _ => true
  | _ => false
  end.

Definition is_individual_call (entry : Call * Reply) : bool :=
  match entry.1 with
  | Delete _ => true
  | _ => false
  end.

Definition is_failed_individual (entry : Call * Reply) : bool :=
  is_individual_call entry && negb (is_ok entry.2).

(** Number of entries of the trace that satisfy [f]. *)
Definition count_calls (f : Call * Reply -> bool) (tr : list (Call * Reply))
  : nat :=
  length (List.filter f tr).

(** The chunks [_delete_records] cuts a list into. *)
Definition chunks_of (records : list RecordRef) : list (list RecordRef) :=
  (fun i => Py.slice records i 100) <$> Py.range_step (length records) 100.

(** *** The protocol of the list walk *)

(** The ["after"] parameter of a listing request, given the cursor of the
    page received last: absent unless that cursor is usable. *)
Definition after_param (cursor : option string) : option string :=
  if Py.truthy cursor then cursor else None.

(** The requests of a walk that has received a page with cursor [cursor]
    last ([None] at the start): each is a listing request for 100 records
    of the object type with that cursor; a failed request is the last one;
    after a page without usable cursor nothing follows. *)
Inductive walk (object_type : string)
  : option string -> list (Call * Reply) -> Prop :=
| walk_stop cursor : walk object_type cursor []
| walk_failed cursor e :
    walk object_type cursor
      [(Get (list_endpoint object_type) 100 (after_param cursor), inl e)]
| walk_last cursor resp :
    Py.truthy (paging_next_after resp) = false ->
    walk object_type cursor
      [(Get (list_endpoint object_type) 100 (after_param cursor), inr resp)]
| walk_more cursor resp tr :
    Py.truthy (paging_next_after resp) = true ->
    walk object_type (paging_next_after resp) tr ->
    walk object_type cursor
      ((Get (list_endpoint object_type) 100 (after_param cursor), inr resp)
         :: tr).


(** *** Which calls a computation issues *)

(** Every call the computation issues satisfies [P]; the log only grows. *)
Definition confined {W A} (P : Call -> Prop) (m : M W A) : Prop :=
  forall s, exists tr,
    log (m s).2 = log s ++ tr
    /\ Forall (fun entry : Call * Reply => P entry.1) tr.

(** A listing request for the object type. *)
Definition is_list_call (object_type : string) (c : Call) : Prop :=
  exists cursor, c = Get (list_endpoint object_type) 100 cursor.

(** A search request for the object type that carries the caller's
    predicates unchanged, followed by one id-threshold predicate, sorted by
    ascending id, 200 records per page. *)
Definition is_search_call (object_type : string) (caller_filters : list Filter)
  (c : Call) : Prop :=
  exists t cursor,
    c = PostSearch (search_endpoint object_type)
          (set_after
             (_create_search_payload (caller_filters ++ [id_filter t]))
             cursor).

(** A bulk archive or an individual delete of records of the object
    type. *)
Definition is_delete_call (object_type : string) (c : Call) : Prop :=
  (exists inputs, c = PostArchive (archive_endpoint object_type) inputs)
  \/ (exists r, c = Delete (record_endpoint object_type r)).

(** A call that removes records. *)
Definition is_deletion (c : Call) : bool :=
  match c with
  | PostArchive _ _ | Delete _ => true
  | _ => false
  end.

(** A call to the search endpoint. *)
Definition is_search (c : Call) : bool :=
  match c with
  | PostSearch _ _ => true
  | _ => false
  end.


(** Every reply of the trace that reports a total of 0 carries no record. *)
Definition totals_consistent (tr : list (Call * Reply)) : Prop :=
  Forall (fun entry : Call * Reply =>
            match entry.2 with
            | inr resp => default 0 (total resp) = 0 -> results resp = []
            | inl _ => True
            end) tr.

(** A response sequence of one leg in two pages: two records, then one. *)
Definition script_two_pages : list Reply :=
  [inr search_page_with_cursor;
   inr {| total := Some 3; results := [{| raw_id := Some "3" |}];
          paging_next_after := None |}].


(** If the computation raises, it has issued no call that removes
    records. *)
Definition raises_before_deleting {W A} (m : M W A) : Prop :=
  forall s, exists tr,
    log (m s).2 = log s ++ tr
    /\ forall e, (m s).1 = Raise e ->
         Forall (fun entry : Call * Reply => is_deletion entry.1 = false) tr.



(** 2024-03-01T00:00:00-0500. *)
Definition march_first_eastern : datetime :=
  {| tzinfo := Some (-18000); utc_timestamp := 1709269200000 |}.


(** The object type [_read_csv_records] files a row under: the cell of
    the [object_type] column when the header has one and the cell is
    non-empty, [contacts] otherwise. *)
Definition row_object_type (has_object_type : bool)
  (row : gmap string (option string)) : string :=
  if has_object_type then
    match row !! "object_type" with
    | Some v => if Py.truthy v then fmt v else "contacts"
    | None => "contacts"
    end
  else "contacts".

(** The references of the rows filed under [object_type], in row order:
    one per row with a non-empty identifier. *)
Definition csv_group (fieldnames : list string) (rows : list (list string))
  (id_column object_type : string) : list RecordRef :=
  flat_map
    (fun row : gmap string (option string) =>
       match row !! id_column with
       | Some v =>
           if Py.truthy v
              && bool_decide
                   (row_object_type
                      (bool_decide ("object_type" ∈ fieldnames)) row
                    = object_type)
           then [{| id := v |}] else []
       | None => []
       end)
    (dict_rows fieldnames rows).


(** *** A leg at the depth ceiling *)

(** A synthetic store of 25000 records that reports exact totals. *)
Definition deep_store : SyntheticStore :=
  {| store_size := 25000; caps_total := false |}.

(** The pagination requests number [j], [j+1], ... ([k] of them) of the
    leg that starts at threshold [t] on the synthetic store, each with the
    page the store returns. *)
Fixpoint synthetic_trace (st : SyntheticStore) (object_type : string)
  (payload : SearchPayload) (t j : Z) (k : nat) : list (Call * Reply) :=
  match k with
  | O => []
  | S k' =>
      (PostSearch (search_endpoint object_type)
         (set_after payload (Some (Py.str (200 * j)))),
       inr (synthetic_page st t (200 * j)))
        :: synthetic_trace st object_type payload t (j + 1) k'
  end.

(** A first page that, against the page size asked for, already holds
    [LEG_CAP] records and carries a cursor. *)
Definition full_first_page : Response :=
  {| total := Some 25000;
     results := raw_records (seqZ 1 10000);
     paging_next_after := Some "10000" |}.


(** ** Reasoning about runs *)

Section Runs.
Context {W : Type} `{HubspotClient W}.

Lemma bind_ok {A B} (m : M W A) (k : A -> M W B) s a s' :
  m s = (Ok a, s') -> bind m k s = k a s'.
Proof. unfold bind. now intros ->. Qed.

Lemma bind_raise {A B} (m : M W A) (k : A -> M W B) s e s' :
  m s = (Raise e, s') -> bind m k s = (Raise e, s').
Proof. unfold bind. now intros ->. Qed.

Lemma call_run (c : Call) (s : St W) :
  call c s =
    (match (request c (world s)).1 with
     | inl e => Raise (HubspotError e)
     | inr resp => Ok resp
     end,
     mkSt (request c (world s)).2 (log s ++ [(c, (request c (world s)).1)])).
Proof.
  unfold call. destruct (request c (world s)) as [[e|resp] w]; reflexivity.
Qed.

End Runs.

(** ** Date-range deletion *)

Section DateCriteria.
Context {W : Type} `{HubspotClient W}.

Lemma no_dates_fold fuel (l : list string) (acc : gmap string nat)
  (s : St W) :
  for_each
    (fun (deletion_counts : gmap string nat) object_type =>
       records <- _get_records_by_date_criteria fuel object_type None None ;;
       count <- _delete_records object_type records ;;
       ret (<[object_type := count]> deletion_counts)) l acc s
  = (Ok (fold_left (fun m ot => <[ot := 0%nat]> m) l acc), s).
Proof.
  revert acc. induction l as [|ot l IH]; intros acc; [reflexivity|].
  cbn [for_each fold_left].
  erewrite bind_ok; [apply IH|]. reflexivity.
Qed.

Lemma fold_insert_zero_lookup (l : list string) (acc : gmap string nat) ot :
  fold_left (fun m ot => <[ot := 0%nat]> m) l acc !! ot
  = if bool_decide (ot ∈ l) then Some 0%nat else acc !! ot.
Proof.
  revert acc. induction l as [|x l IH]; intros acc; [reflexivity|].
  cbn [fold_left]. rewrite IH.
  destruct (decide (ot = x)) as [->|Hne].
  - rewrite (bool_decide_eq_true_2 (x ∈ x :: l)) by left.
    rewrite lookup_insert_eq. now case_bool_decide.
  - rewrite lookup_insert_ne by congruence.
    case_bool_decide as Hin; case_bool_decide as Hin'; try reflexivity.
    + exfalso. apply Hin'. now right.
    + exfalso. apply elem_of_cons in Hin' as [?|?]; congruence.
Qed.

(** C10. With neither [created_after] nor [modified_after], a date-range
    call issues no request at all (the state, log included, is returned
    unchanged) and its outcome map assigns 0 to exactly the processed
    object types. *)
Theorem delete_by_date_criteria_without_dates fuel object_types (s : St W) :
  exists counts : gmap string nat,
    delete_by_date_criteria fuel None None object_types s = (Ok counts, s)
    /\ (forall ot, ot ∈ processed_types object_types ->
                   counts !! ot = Some 0%nat)
    /\ (forall ot, ot ∉ processed_types object_types -> counts !! ot = None).
Proof.
  eexists. split; [apply no_dates_fold|].
  split; intros ot Hot; rewrite fold_insert_zero_lookup.
  - now rewrite bool_decide_eq_true_2.
  - now rewrite bool_decide_eq_false_2.
Qed.

Lemma naive_filters_raise fuel object_type created_after modified_after
  (s : St W) :
  naive created_after \/ naive modified_after ->
  _get_records_by_date_criteria fuel object_type created_after modified_after s
  = (Raise ValueError, s).
Proof.
  intros [[d [-> Hd]]|[d [-> Hd]]].
  - unfold _get_records_by_date_criteria, _build_date_filter, bind, raise.
    now rewrite Hd.
  - unfold _get_records_by_date_criteria, _build_date_filter, bind, raise, ret.
    rewrite Hd. destruct created_after as [c|]; [|reflexivity].
    now destruct (tzinfo c).
Qed.

(** C9 (as amended). When at least one object type is processed, a
    date-range call with a timestamp lacking a timezone offset raises
    [ValueError] and leaves the state, log included, untouched: no request
    was issued. *)
Theorem delete_by_date_criteria_naive_timestamp fuel created_after
  modified_after object_types (s : St W) :
  processed_types object_types <> [] ->
  naive created_after \/ naive modified_after ->
  delete_by_date_criteria fuel created_after modified_after object_types s
  = (Raise ValueError, s).
Proof.
  intros Hne Hnaive. unfold delete_by_date_criteria.
  fold (processed_types object_types).
  destruct (processed_types object_types) as [|ot l]; [congruence|].
  cbn [for_each].
  erewrite bind_raise; [reflexivity|].
  erewrite bind_raise; [reflexivity|].
  now apply naive_filters_raise.
Qed.

End DateCriteria.

Lemma delete_by_date_criteria_naive_timestamp_witness :
  delete_by_date_criteria (W := list Reply) 3 (Some naive_march_first) None
    (Some ["contacts"]) (start [])
  = (Raise ValueError, start []).
Proof.
  apply delete_by_date_criteria_naive_timestamp.
  - simpl. discriminate.
  - left. exists naive_march_first. split; reflexivity.
Defined.

(** C9, as stated, fails when the list of object types is empty: the
    timestamp is examined once per object type, so nothing is examined and
    the call returns an empty outcome map instead of raising. *)
Lemma delete_by_date_criteria_naive_empty_types :
  naive (Some naive_march_first) /\
  delete_by_date_criteria (W := list Reply) 3 (Some naive_march_first) None
    (Some []) (start [])
  = (Ok ∅, start []).
Proof.
  split; [exists naive_march_first; split; reflexivity | reflexivity].
Qed.

(** ** Deletion by query *)

Section Query.
Context {W : Type} `{HubspotClient W}.

(** A list of filter dictionaries is passed through unchanged, followed by
    the engine's own id-threshold predicate. *)
Lemma add_id_threshold_filter_list (query : list Filter) threshold_id
  (s : St W) :
  _add_id_threshold_filter (PyList query) threshold_id s
  = (Ok (query ++ [{| propertyName := "hs_object_id"; operator := "GT";
                      value := Some (Py.str threshold_id) |}]), s).
Proof. reflexivity. Qed.

(** C6 (the code at the failing input). A query that is a [str], as the
    signature of [delete_by_query] announces and as the command line
    passes it, never reaches the store: [_add_id_threshold_filter] calls
    [copy()] on it, which a [str] does not have, and the call ends with
    [AttributeError] before any request is issued. *)
Theorem delete_by_query_str_raises fuel object_type (q : string) (s : St W) :
  delete_by_query (S fuel) object_type (PyStr q) s = (Raise AttributeError, s).
Proof. reflexivity. Qed.

End Query.

(** ** Batch deleter *)

Section Chunks.
Context {A : Type}.
Implicit Types (l : list A) (n k : nat).

Lemma slices_concat l n k :
  concat ((fun i => Py.slice l i n) <$> ((fun j => j * n)%nat <$> seq 0 k))
  = take (k * n) l.
Proof.
  induction k as [|k IH]; [reflexivity|].
  rewrite seq_S, !fmap_app, concat_app, IH. cbn.
  rewrite app_nil_r. unfold Py.slice. rewrite take_take_drop.
  f_equal. lia.
Qed.

Lemma range_step_covers (m n : nat) :
  (0 < n)%nat -> (m <= (m + n - 1) / n * n)%nat.
Proof.
  intros Hn.
  pose proof (Nat.div_mod_eq (m + n - 1) n) as E.
  pose proof (Nat.mod_upper_bound (m + n - 1) n) as U. nia.
Qed.

Lemma range_step_inside (m n j : nat) :
  (0 < n)%nat -> (j < (m + n - 1) / n)%nat -> (j * n < m)%nat.
Proof.
  intros Hn Hj.
  pose proof (Nat.div_mod_eq (m + n - 1) n) as E.
  pose proof (Nat.mod_upper_bound (m + n - 1) n) as U. nia.
Qed.

(** [range(0, len(l), n)] with [l[i:i+n]] cuts [l] into consecutive pieces:
    nothing lost, nothing repeated. *)
Lemma chunks_concat l n :
  (0 < n)%nat ->
  concat ((fun i => Py.slice l i n) <$> Py.range_step (length l) n) = l.
Proof.
  intros Hn. unfold Py.range_step. rewrite slices_concat.
  apply take_ge. now apply range_step_covers.
Qed.

(** Every piece is non-empty and has at most [n] elements; every piece but
    the last has exactly [n]. *)
Lemma chunks_length l n k c :
  (0 < n)%nat ->
  ((fun i => Py.slice l i n) <$> Py.range_step (length l) n) !! k = Some c ->
  (0 < length c <= n)%nat
  /\ (S k < length ((fun i => Py.slice l i n) <$> Py.range_step (length l) n)
      -> length c = n)%nat.
Proof.
  intros Hn Hk. unfold Py.range_step in *.
  rewrite !length_fmap, length_seq.
  rewrite !list_lookup_fmap in Hk.
  destruct (seq 0 ((length l + n - 1) / n) !! k) as [j|] eqn:Hj;
    [|discriminate].
  apply lookup_seq in Hj as [-> Hlt]. cbn in Hk. injection Hk as <-.
  unfold Py.slice. rewrite length_take, length_drop.
  pose proof (range_step_inside (length l) n k Hn Hlt).
  split; [lia|]. intros Hlast.
  pose proof (range_step_inside (length l) n (S k) Hn Hlast). lia.
Qed.

End Chunks.

Section Deleter.
Context {W : Type} `{HubspotClient W}.

Lemma record_ref_eta (l : list RecordRef) :
  (fun record => {| id := id record |}) <$> l = l.
Proof.
  induction l as [|[x] l IH]; [reflexivity|].
  rewrite fmap_cons, IH. reflexivity.
Qed.

(** One individual delete: counted when it succeeds, skipped when it fails,
    never raising. *)
Lemma delete_one_run object_type record (count : nat) (s : St W) :
  let c := Delete (record_endpoint object_type record) in
  let r := (request c (world s)).1 in
  delete_one object_type count record s
  = (Ok (count + (if is_ok r then 1 else 0))%nat,
     mkSt (request c (world s)).2 (log s ++ [(c, r)])).
Proof.
  intros c r. unfold delete_one, try_except_Exception, bind.
  rewrite call_run.
  subst r c. destruct (request _ (world s)) as [[e|resp] w]; simpl.
  - unfold ret. now rewrite Nat.add_0_r.
  - reflexivity.
Qed.

Lemma delete_individually_run object_type batch (count : nat) (s : St W) :
  exists replies s',
    delete_individually object_type batch count s
    = (Ok (count + successes replies)%nat, s')
    /\ length replies = length batch
    /\ log s' = log s ++ individual_calls object_type batch replies.
Proof.
  revert count s. induction batch as [|record batch IH]; intros count s.
  - exists [], s. cbn. rewrite app_nil_r, Nat.add_0_r. auto.
  - unfold delete_individually. cbn [for_each].
    erewrite bind_ok by apply delete_one_run.
    match goal with |- context [mkSt ?w ?l] => set (s1 := mkSt w l) end.
    match goal with |- context [(count + ?k)%nat] => set (k1 := k) end.
    destruct (IH (count + k1)%nat s1) as (replies & s' & Hrun & Hlen & Hlog).
    exists ((request (Delete (record_endpoint object_type record))
               (world s)).1 :: replies), s'.
    split; [|split].
    + unfold delete_individually in Hrun. rewrite Hrun.
      cbn [successes]. subst k1. now rewrite Nat.add_assoc.
    + cbn. now rewrite Hlen.
    + rewrite Hlog. subst s1. cbn. now rewrite <- app_assoc.
Qed.

(** One chunk: a bulk-archive call, and the per-record fallback when it
    fails with a classified remote error. *)
Lemma delete_batch_run object_type records size i (count : nat) (s : St W) :
  exists n tr s',
    delete_batch object_type records size count i s = (Ok (count + n)%nat, s')
    /\ log s' = log s ++ tr
    /\ chunk_run object_type (Py.slice records i size) tr n.
Proof.
  unfold delete_batch. cbv zeta. rewrite record_ref_eta.
  set (batch := Py.slice records i size).
  unfold try_except_HubspotError, bind. rewrite call_run.
  destruct (request (PostArchive (archive_endpoint object_type) batch)
              (world s)) as [[e|resp] w] eqn:Hreq; cbn [fst snd].
  - match goal with |- context [delete_individually _ _ _ ?s1] =>
      destruct (delete_individually_run object_type batch count s1)
        as (replies & s' & Hrun & Hlen & Hlog)
    end.
    eexists _, _, s'. split; [exact Hrun|]. split.
    + rewrite Hlog. cbn [log]. rewrite <- app_assoc. reflexivity.
    + cbn. now constructor.
  - eexists _, _, _. split; [reflexivity|]. split; [reflexivity|].
    constructor.
Qed.

Lemma delete_batches_run object_type records size (idxs : list nat)
  (count : nat) (s : St W) :
  exists n tr s',
    for_each (delete_batch object_type records size) idxs count s
    = (Ok (count + n)%nat, s')
    /\ log s' = log s ++ tr
    /\ chunks_run object_type
         ((fun i => Py.slice records i size) <$> idxs) tr n.
Proof.
  revert count s. induction idxs as [|i idxs IH]; intros count s.
  - exists 0%nat, [], s. cbn. rewrite app_nil_r, Nat.add_0_r.
    split; [reflexivity|]. split; [reflexivity|]. constructor.
  - cbn [for_each].
    destruct (delete_batch_run object_type records size i count s)
      as (n1 & tr1 & s1 & Hrun1 & Hlog1 & Hchunk).
    erewrite bind_ok by exact Hrun1.
    destruct (IH (count + n1)%nat s1) as (n2 & tr2 & s2 & Hrun2 & Hlog2 & Hrest).
    exists (n1 + n2)%nat, (tr1 ++ tr2), s2. split; [|split].
    + rewrite Hrun2. now rewrite Nat.add_assoc.
    + rewrite Hlog2, Hlog1. now rewrite <- app_assoc.
    + rewrite fmap_cons. now constructor.
Qed.

(** The run of [_delete_records] on any list, against any store. *)
Lemma delete_records_run object_type (records : list RecordRef) (s : St W) :
  exists (n : nat) s' tr chunks,
    _delete_records object_type records s = (Ok n, s')
    /\ log s' = log s ++ tr
    /\ chunks_run object_type chunks tr n
    /\ concat chunks = records
    /\ forall k c, chunks !! k = Some c ->
         (0 < length c <= 100)%nat
         /\ (S k < length chunks -> length c = 100)%nat.
Proof.
  unfold _delete_records. cbv zeta.
  destruct (delete_batches_run object_type records 100
              (Py.range_step (length records) 100) 0%nat s)
    as (n & tr & s' & Hrun & Hlog & Hchunks).
  exists n, s', tr, ((fun i => Py.slice records i 100)
                       <$> Py.range_step (length records) 100).
  split; [exact Hrun|]. split; [exact Hlog|]. split; [exact Hchunks|].
  split; [apply chunks_concat; lia|].
  intros k c Hk. apply (chunks_length records 100 k c); [lia|exact Hk].
Qed.

(** Every record of every chunk is carried by a call to the endpoints of
    the object type the deleter was given. *)
Lemma chunks_run_deleted_under object_type chunks tr n r :
  chunks_run object_type chunks tr n ->
  r ∈ concat chunks ->
  deleted_under object_type r tr = true.
Proof.
  unfold deleted_under.
  induction 1 as [|chunk chunks tr n tr' n' Hchunk _ IH]; intros Hin.
  - now apply elem_of_nil in Hin.
  - cbn [concat] in Hin. rewrite existsb_app.
    apply elem_of_app in Hin as [Hin|Hin].
    + apply orb_true_iff. left.
      destruct Hchunk; cbn [existsb fst deletes_under];
        rewrite !bool_decide_eq_true_2 by (reflexivity || exact Hin);
        reflexivity.
    + apply orb_true_iff. right. now apply IH.
Qed.

End Deleter.

(** C3. For every list of records and every behaviour of the store,
    [_delete_records] returns normally; the records are cut into
    consecutive chunks of 100 (the last one possibly shorter); each chunk
    is sent in one bulk-archive call, which on success adds the chunk's
    size to the count; on a classified remote error every record of the
    chunk gets its own delete call, each success adding one and each
    failure nothing, and the remaining records and chunks are processed all
    the same. With 250 records, a failing second bulk call and 80
    successful individual deletes out of 100, the count is 230, in
    1 + 101 + 1 calls. *)
Theorem delete_records_accounting :
  (forall (W : Type) (client : HubspotClient W) object_type
          (records : list RecordRef) (s : St W),
     exists (n : nat) s' tr chunks,
       _delete_records object_type records s = (Ok n, s')
       /\ log s' = log s ++ tr
       /\ chunks_run object_type chunks tr n
       /\ concat chunks = records
       /\ forall k c, chunks !! k = Some c ->
            (0 < length c <= 100)%nat
            /\ (S k < length chunks -> length c = 100)%nat)
  /\ (let run := _delete_records "contacts" (refs_from 1 250)
                    (start flaky_server) in
      run.1 = Ok 230%nat
      /\ is_ok <$> (snd <$> take 1 (log run.2)) = [true]
      /\ is_ok <$> (snd <$> take 1 (drop 1 (log run.2))) = [false]
      /\ successes (snd <$> take 100 (drop 2 (log run.2))) = 80%nat
      /\ is_ok <$> (snd <$> drop 102 (log run.2)) = [true]).
Proof.
  split.
  - intros W client object_type records s. apply delete_records_run.
  - vm_compute. repeat split; reflexivity.
Qed.

(** ** Deletion from a tabular source *)

Section Csv.
Context {W : Type} `{HubspotClient W}.

Lemma fold_insert_is_Some {X V} (g : X -> string) (v : X -> V) (l : list X)
  (d : gmap string V) k :
  is_Some (d !! k) \/ k ∈ g <$> l ->
  is_Some (fold_left (fun d x => <[g x := v x]> d) l d !! k).
Proof.
  revert d. induction l as [|x l IH]; intros d Hd.
  - destruct Hd as [Hd|Hin]; [exact Hd|]. now apply elem_of_nil in Hin.
  - cbn [fold_left]. apply IH.
    destruct (decide (g x = k)) as [<-|Hne].
    + left. rewrite lookup_insert_eq. eauto.
    + rewrite lookup_insert_ne by exact Hne.
      destruct Hd as [Hd|Hin]; [now left|].
      rewrite fmap_cons in Hin. apply elem_of_cons in Hin as [->|Hin];
        [congruence|now right].
Qed.

Lemma fieldname_zipped_or_padded (fieldnames row : list string) k :
  k ∈ fieldnames ->
  k ∈ fst <$> zip fieldnames row \/ k ∈ drop (length row) fieldnames.
Proof.
  revert row. induction fieldnames as [|f fieldnames IH]; intros row Hk.
  - now apply elem_of_nil in Hk.
  - destruct row as [|r row]; [now right|].
    apply elem_of_cons in Hk as [->|Hk].
    + left. cbn. left.
    + destruct (IH row Hk) as [Hz|Hd]; [left|now right].
      cbn. now right.
Qed.

(** Every field name is a key of the dictionary of every row. *)
Lemma dict_row_has_fieldnames (fieldnames row : list string) k :
  k ∈ fieldnames -> is_Some (dict_row fieldnames row !! k).
Proof.
  intros Hk. unfold dict_row.
  apply (fold_insert_is_Some (fun k => k) (fun _ => None)).
  destruct (fieldname_zipped_or_padded fieldnames row k Hk) as [Hz|Hd].
  - left. apply (fold_insert_is_Some fst (fun kv => Some kv.2)). now right.
  - right. now rewrite list_fmap_id.
Qed.

(** The row loop of [delete_from_csv] never raises and issues no call. *)
Lemma csv_rows_run (ds : list (gmap string (option string))) id_column
  (records : list RecordRef) (s : St W) :
  Forall (fun d => is_Some (d !! id_column)) ds ->
  for_each
    (fun records row =>
       v <- getitem row id_column ;;
       if Py.truthy v then ret (records ++ [{| id := v |}]) else ret records)
    ds records s
  = (Ok (records
         ++ flat_map
              (fun row : gmap string (option string) =>
                 match row !! id_column with
                 | Some v => if Py.truthy v then [{| id := v |}] else []
                 | None => []
                 end) ds), s).
Proof.
  intros Hall. revert records.
  induction Hall as [|d ds [v Hd] _ IH]; intros records.
  - cbn. now rewrite app_nil_r.
  - cbn [for_each flat_map]. unfold bind at 1, getitem at 1. rewrite Hd.
    unfold bind at 1, ret at 1.
    destruct (Py.truthy v).
    + unfold ret at 1. rewrite IH. now rewrite <- app_assoc.
    + unfold ret at 1. rewrite IH. reflexivity.
Qed.

(** C5 (as amended). When the identifier column exists, [delete_from_csv]
    queues one reference per row with a non-empty identifier and deletes
    all of them as records of the caller-supplied type: every bulk-archive
    and every individual delete call goes to that type's endpoints, and
    each queued record is carried by one of them, whatever a category
    column of the source may say. *)
Theorem delete_from_csv_uses_caller_type object_type fieldnames rows id_column
  (s : St W) :
  id_column ∈ fieldnames ->
  exists (n : nat) s' tr chunks,
    delete_from_csv object_type (fieldnames :: rows) id_column s = (Ok n, s')
    /\ log s' = log s ++ tr
    /\ chunks_run object_type chunks tr n
    /\ concat chunks = csv_records fieldnames rows id_column
    /\ forall r, r ∈ csv_records fieldnames rows id_column ->
         deleted_under object_type r tr = true.
Proof.
  intros Hcol. unfold delete_from_csv.
  rewrite bool_decide_eq_true_2 by exact Hcol.
  erewrite bind_ok.
  2:{ apply csv_rows_run. unfold dict_rows. apply Forall_fmap, Forall_forall.
      intros row _. now apply dict_row_has_fieldnames. }
  cbn [app].
  destruct (delete_records_run object_type
              (csv_records fieldnames rows id_column) s)
    as (n & s' & tr & chunks & Hrun & Hlog & Hchunks & Hcat & _).
  exists n, s', tr, chunks. unfold csv_records in *.
  repeat split; auto.
  intros r Hr. apply (chunks_run_deleted_under _ chunks _ n); [exact Hchunks|].
  now rewrite Hcat.
Qed.

End Csv.

Lemma delete_from_csv_uses_caller_type_witness :
  exists (n : nat) s' tr chunks,
    delete_from_csv "contacts" csv_with_category "hubspot_id"
      (start accepting_server) = (Ok n, s')
    /\ log s' = log (start accepting_server) ++ tr
    /\ chunks_run "contacts" chunks tr n
    /\ concat chunks
       = csv_records ["hubspot_id"; "object_type"] [["7"; "companies"]]
           "hubspot_id"
    /\ forall r,
         r ∈ csv_records ["hubspot_id"; "object_type"] [["7"; "companies"]]
               "hubspot_id" ->
         deleted_under "contacts" r tr = true.
Proof.
  apply (delete_from_csv_uses_caller_type (W := Call -> Reply)).
  left.
Defined.

(** C5, as stated, fails: the row of record 7 carries the category
    [companies], the caller asked for [contacts], and the only call issued
    is the bulk archive of record 7 as a contact; nothing is sent to the
    endpoints of [companies]. *)
Lemma delete_from_csv_ignores_category_column :
  let run := delete_from_csv "contacts" csv_with_category "hubspot_id"
               (start accepting_server) in
  dict_row ["hubspot_id"; "object_type"] ["7"; "companies"] !! "object_type"
  = Some (Some "companies")
  /\ run.1 = Ok 1%nat
  /\ log run.2
     = [(PostArchive "/crm/v3/objects/contacts/batch/archive"
           [{| id := Some "7" |}], inr ok_response)]
  /\ deleted_under "companies" {| id := Some "7" |} (log run.2) = false.
Proof. vm_compute. repeat split; reflexivity. Qed.

(** ** Full list enumerator *)

Section ListWalk.
Context {W : Type} `{HubspotClient W}.

Lemma error_in_trace_is_last before c e c' e' :
  all_ok before -> (c', inl e') ∈ before ++ [(c, inl e)] -> c' = c /\ e' = e.
Proof.
  intros Hok Hin. apply elem_of_app in Hin as [Hin|Hin].
  - unfold all_ok in Hok. rewrite Forall_forall in Hok.
    apply Hok in Hin. discriminate.
  - apply list_elem_of_singleton in Hin. now injection Hin as -> ->.
Qed.

(** The walk against any store: while pages keep coming the references
    accumulate; the first failed call ends the walk with what was
    accumulated; the walk never raises. *)
Lemma get_all_records_loop_run fuel object_type all_records after (s : St W) :
  exists tr,
    log (_get_all_records_by_type_loop fuel object_type all_records after s).2
    = log s ++ tr
    /\ ((all_ok tr
         /\ ((_get_all_records_by_type_loop fuel object_type all_records
                after s).1 = OutOfFuel
             \/ (_get_all_records_by_type_loop fuel object_type all_records
                   after s).1 = Ok (all_records ++ collected tr)))
        \/ (exists before c e,
              tr = before ++ [(c, inl e)] /\ all_ok before
              /\ (_get_all_records_by_type_loop fuel object_type all_records
                    after s).1 = Ok (all_records ++ collected before))).
Proof.
  revert all_records after s.
  induction fuel as [|fuel IH]; intros all_records after s.
  - exists []. cbn. rewrite app_nil_r. split; [reflexivity|].
    left. split; [constructor|now left].
  - cbn [_get_all_records_by_type_loop].
    unfold try_except_HubspotError, bind. rewrite call_run.
    set (c := Get _ _ _).
    destruct (request c (world s)) as [[e|resp] w]; cbn [fst snd].
    + exists [(c, inl e)]. split; [reflexivity|]. right.
      exists [], c, e. cbn. rewrite app_nil_r.
      split; [reflexivity|]. split; [constructor|reflexivity].
    + destruct (negb (Py.truthy (paging_next_after resp))).
      * exists [(c, inr resp)]. cbn. split; [reflexivity|]. left.
        split; [repeat constructor|]. right.
        unfold page_refs. now rewrite app_nil_r.
      * match goal with |- context [_get_all_records_by_type_loop fuel
                                      object_type ?acc ?a ?s1] =>
          destruct (IH acc a s1) as (tr & Hlog & Hcases);
          destruct (_get_all_records_by_type_loop fuel object_type acc a s1)
            as [r s'] eqn:Hrun
        end.
        cbn [fst snd log] in *.
        exists ((c, inr resp) :: tr).
        destruct Hcases as [[Hok Hr]|(before & c' & e & -> & Hok & Hr)].
        -- assert (Hlog' : log s' = log s ++ (c, inr resp) :: tr)
             by (rewrite Hlog; now rewrite <- app_assoc).
           destruct Hr as [-> | ->]; cbn [fst snd]; (split; [exact Hlog'|]);
             left; (split; [constructor; [reflexivity|exact Hok]|]);
             [now left|right].
           cbn. unfold page_refs. now rewrite <- app_assoc.
        -- subst r. cbn [fst snd]. split.
           { rewrite Hlog. now rewrite <- app_assoc. }
           right. exists ((c, inr resp) :: before), c', e.
           split; [reflexivity|]. split; [constructor; [reflexivity|exact Hok]|].
           cbn. unfold page_refs. now rewrite <- app_assoc.
Qed.

(** C7. Against any store and for any object type: if some call of the
    walk fails with a classified remote error, that call is the last one
    of the walk, and the walk returns normally with exactly the references
    of the pages received before it. *)
Theorem get_all_records_by_type_partial_on_error fuel object_type
  (s s' : St W) r tr c e :
  _get_all_records_by_type fuel object_type s = (r, s') ->
  log s' = log s ++ tr ->
  (c, inl e) ∈ tr ->
  exists before,
    tr = before ++ [(c, inl e)]
    /\ all_ok before
    /\ r = Ok (collected before).
Proof.
  intros Hrun Hlog Hin. unfold _get_all_records_by_type in Hrun.
  destruct (get_all_records_loop_run fuel object_type [] None s)
    as (tr' & Hlog' & Hcases).
  rewrite Hrun in Hlog', Hcases. cbn [fst snd] in *.
  rewrite Hlog in Hlog'. apply app_inv_head in Hlog' as <-.
  destruct Hcases as [[Hok _]|(before & c' & e' & -> & Hok & ->)].
  - unfold all_ok in Hok. rewrite Forall_forall in Hok.
    apply Hok in Hin. discriminate.
  - destruct (error_in_trace_is_last _ _ _ _ _ Hok Hin) as [-> ->].
    exists before. auto.
Qed.

End ListWalk.

Lemma get_all_records_by_type_partial_on_error_witness :
  exists before,
    [(Get "/crm/v3/objects/contacts" 100 None, inr page_with_cursor);
     (Get "/crm/v3/objects/contacts" 100 (Some "2"), inl (ServerError 503))]
    = before ++ [(Get "/crm/v3/objects/contacts" 100 (Some "2"),
                  inl (ServerError 503))]
    /\ all_ok before
    /\ Ok [{| id := Some "1" |}; {| id := Some "2" |}] = Ok (collected before).
Proof.
  apply (get_all_records_by_type_partial_on_error (W := list Reply) 5
           "contacts"
           (start [inr page_with_cursor; inl (ServerError 503);
                   inr page_with_cursor])
           (mkSt [inr page_with_cursor]
              [(Get "/crm/v3/objects/contacts" 100 None, inr page_with_cursor);
               (Get "/crm/v3/objects/contacts" 100 (Some "2"),
                inl (ServerError 503))])).
  - vm_compute. reflexivity.
  - reflexivity.
  - right. left.
Defined.

(** ** Filtered search enumerator: error propagation *)

Section SearchErrors.
Context {W : Type} `{HubspotClient W}.

Lemma propagates_nil {A} (r : result A) :
  (forall e, r <> Raise (HubspotError e)) -> propagates r [].
Proof. intros Hr. left. split; [constructor|exact Hr]. Qed.

Lemma strict_ret {A} (a : A) : strict (W := W) (ret a).
Proof.
  intros s. exists []. cbn. rewrite app_nil_r. split; [reflexivity|].
  now apply propagates_nil.
Qed.

Lemma strict_out_of_fuel {A} : strict (W := W) (A := A) out_of_fuel.
Proof.
  intros s. exists []. cbn. rewrite app_nil_r. split; [reflexivity|].
  now apply propagates_nil.
Qed.

Lemma strict_raise {A} (x : exn) :
  (forall e, x <> HubspotError e) -> strict (W := W) (A := A) (raise x).
Proof.
  intros Hx s. exists []. cbn. rewrite app_nil_r. split; [reflexivity|].
  apply propagates_nil. intros e [= E]. now apply (Hx e).
Qed.

Lemma strict_call (c : Call) : strict (call c).
Proof.
  intros s. exists [(c, (request c (world s)).1)]. rewrite call_run.
  cbn [fst snd log]. split; [reflexivity|].
  destruct (request c (world s)) as [[e|resp] w]; cbn [fst].
  - right. exists [], c, e. repeat split. constructor.
  - left. split; [repeat constructor|discriminate].
Qed.

Lemma strict_bind {A B} (m : M W A) (k : A -> M W B) :
  strict m -> (forall a, strict (k a)) -> strict (bind m k).
Proof.
  intros Hm Hk s. destruct (Hm s) as (tr1 & Hlog1 & Hp1).
  unfold bind. destruct (m s) as [[a|x|] s1]; cbn [fst snd] in *.
  - destruct (Hk a s1) as (tr2 & Hlog2 & Hp2).
    exists (tr1 ++ tr2). split.
    { rewrite Hlog2, Hlog1. now rewrite <- app_assoc. }
    destruct Hp1 as [[Hok1 _]|(? & ? & ? & _ & _ & [=])].
    destruct Hp2 as [[Hok2 Hr]|(before & c & e & -> & Hok2 & Hr)].
    + left. split; [now apply Forall_app|exact Hr].
    + right. exists (tr1 ++ before), c, e.
      split; [now rewrite <- app_assoc|]. split; [now apply Forall_app|exact Hr].
  - exists tr1. split; [assumption|].
    destruct Hp1 as [[Hok Hne]|(before & c & e & -> & Hok & [= ->])].
    + left. split; [exact Hok|]. intros e [= ->]. now apply (Hne e).
    + right. exists before, c, e. auto.
  - exists tr1. split; [assumption|].
    destruct Hp1 as [[Hok _]|(? & ? & ? & _ & _ & [=])].
    left. split; [exact Hok|discriminate].
Qed.

(** [except HubspotError as e: ...; raise] changes nothing. *)
Lemma try_reraise {A} (m : M W A) s :
  try_except_HubspotError m (fun e => raise (HubspotError e)) s = m s.
Proof.
  unfold try_except_HubspotError, raise.
  now destruct (m s) as [[a|[e| | | | | | |]|] s1].
Qed.

Lemma strict_try_reraise {A} (m : M W A) :
  strict m -> strict (try_except_HubspotError m (fun e => raise (HubspotError e))).
Proof. intros Hm s. rewrite try_reraise. apply Hm. Qed.

Lemma strict_int (x : option string) : strict (W := W) (int x).
Proof.
  unfold int. destruct x as [x|]; [|now apply strict_raise].
  destruct (Py.int_of_str x); [apply strict_ret|now apply strict_raise].
Qed.

Lemma strict_append_page results batch_records last_id :
  strict (W := W) (append_page results batch_records last_id).
Proof.
  revert batch_records last_id.
  induction results as [|record rest IH]; intros batch_records last_id.
  - apply strict_ret.
  - cbn [append_page]. apply strict_bind; [apply strict_int|].
    intros z. apply IH.
Qed.

Lemma strict_process_search_batch_loop fuel object_type payload batch_records
  last_id after :
  strict (_process_search_batch_loop fuel object_type payload batch_records
            last_id after).
Proof.
  revert payload batch_records last_id after.
  induction fuel as [|fuel IH]; intros payload batch_records last_id after;
    cbn [_process_search_batch_loop];
    (destruct (negb (Py.truthy after)); [apply strict_ret|]).
  - apply strict_out_of_fuel.
  - apply strict_bind; [apply strict_call|]. intros response.
    apply strict_bind; [apply strict_append_page|]. intros [batch last].
    destruct (LEG_CAP <=? len batch); [apply strict_ret|apply IH].
Qed.

Lemma strict_process_search_batch fuel object_type initial_response payload :
  strict (_process_search_batch fuel object_type initial_response payload).
Proof.
  unfold _process_search_batch.
  apply strict_bind; [apply strict_append_page|]. intros [batch last].
  apply strict_process_search_batch_loop.
Qed.

Lemma strict_search_records_leg page_fuel object_type filters all_records
  last_record_id :
  strict (_search_records_leg page_fuel object_type filters all_records
            last_record_id).
Proof.
  unfold _search_records_leg. apply strict_bind.
  - destruct filters; [now apply strict_raise|apply strict_ret].
  - intros current_filters. apply strict_try_reraise.
    apply strict_bind; [apply strict_call|]. intros response.
    destruct (default 0 (total response) =? 0); [apply strict_ret|].
    apply strict_bind; [apply strict_process_search_batch|].
    intros [batch last].
    destruct (default 0 (total response) <? 10000); apply strict_ret.
Qed.

Lemma strict_search_records_loop fuel page_fuel object_type filters
  all_records last_record_id :
  strict (_search_records_loop fuel page_fuel object_type filters all_records
            last_record_id).
Proof.
  revert all_records last_record_id.
  induction fuel as [|fuel IH]; intros all_records last_record_id;
    cbn [_search_records_loop]; [apply strict_out_of_fuel|].
  apply strict_bind; [apply strict_search_records_leg|].
  intros [[[|] all] last]; [apply strict_ret|apply IH].
Qed.

(** C8. Against any store, for any object type and any predicates: if some
    call of the search fails with a classified remote error -- the first
    request of a leg or a pagination request inside it -- that call is the
    last one issued and the search ends by raising that very error; no
    list of records is returned. *)
Theorem search_records_propagates_errors fuel object_type filters
  (s s' : St W) r tr c e :
  _search_records fuel object_type filters s = (r, s') ->
  log s' = log s ++ tr ->
  (c, inl e) ∈ tr ->
  r = Raise (HubspotError e)
  /\ exists before, tr = before ++ [(c, inl e)] /\ all_ok before.
Proof.
  intros Hrun Hlog Hin. unfold _search_records in Hrun.
  destruct (strict_search_records_loop fuel fuel object_type filters [] 0 s)
    as (tr' & Hlog' & Hp).
  rewrite Hrun in Hlog', Hp. cbn [fst snd] in *.
  rewrite Hlog in Hlog'. apply app_inv_head in Hlog' as <-.
  destruct Hp as [[Hok _]|(before & c' & e' & -> & Hok & ->)].
  - unfold all_ok in Hok. rewrite Forall_forall in Hok.
    apply Hok in Hin. discriminate.
  - destruct (error_in_trace_is_last _ _ _ _ _ Hok Hin) as [-> ->].
    split; [reflexivity|]. exists before. auto.
Qed.

End SearchErrors.

Lemma search_records_propagates_errors_witness :
  let run := _search_records 5 "contacts" (PyList [])
               (start script_failing_pagination) in
  run.1 = Raise (HubspotError (RateLimitError (Some 10)))
  /\ exists before,
       log run.2
       = before ++ [(first_pagination_call, inl (RateLimitError (Some 10)))]
       /\ all_ok before.
Proof.
  intros run.
  apply (search_records_propagates_errors (W := list Reply) 5 "contacts"
           (PyList []) (start script_failing_pagination) run.2 run.1
           (log run.2) first_pagination_call (RateLimitError (Some 10))).
  - apply surjective_pairing.
  - reflexivity.
  - vm_compute. right. left.
Defined.

(** ** Filtered search enumerator: one leg *)

Section Leg.
Context {W : Type} `{HubspotClient W}.

(** A page is appended without any request; on success the batch grows by
    the page's references. *)
Lemma append_page_run results batch_records last_id (s : St W) :
  (append_page results batch_records last_id s).2 = s
  /\ forall b l,
       (append_page results batch_records last_id s).1 = Ok (b, l) ->
       b = batch_records ++ ((fun r => {| id := raw_id r |}) <$> results).
Proof.
  revert batch_records last_id.
  induction results as [|record rest IH]; intros batch_records last_id.
  - cbn. split; [reflexivity|]. intros b l [= <- <-]. now rewrite app_nil_r.
  - cbn [append_page]. unfold bind, int.
    destruct (raw_id record) as [x|] eqn:Hx; [|cbn; split; [reflexivity|discriminate]].
    destruct (Py.int_of_str x) as [z|]; cbn [ret raise];
      [|cbn; split; [reflexivity|discriminate]].
    destruct (IH (batch_records ++ [{| id := Some x |}]) z) as [Hs Hb].
    split; [exact Hs|]. intros b l Hr. rewrite (Hb b l Hr).
    rewrite fmap_cons, Hx. now rewrite <- app_assoc.
Qed.

Lemma set_after_twice payload a b :
  set_after (set_after payload a) b = set_after payload b.
Proof. reflexivity. Qed.

Lemma drain_set_after object_type payload a acc cursor tr :
  drain object_type (set_after payload a) acc cursor tr ->
  drain object_type payload acc cursor tr.
Proof.
  induction 1; [constructor| |].
  - rewrite set_after_twice. now constructor.
  - rewrite set_after_twice. now constructor.
Qed.

Lemma len_app {A} (l1 l2 : list A) : len (l1 ++ l2) = len l1 + len l2.
Proof. unfold len. rewrite length_app. lia. Qed.

Lemma len_page_refs resp : len (page_refs resp) = len (results resp).
Proof. unfold len, page_refs. now rewrite length_fmap. Qed.

(** The pagination loop against any store. *)
Lemma process_search_batch_loop_run fuel object_type payload batch_records
  last_id after (s s' : St W) r :
  len batch_records < LEG_CAP ->
  _process_search_batch_loop fuel object_type payload batch_records last_id
    after s = (r, s') ->
  exists tr,
    log s' = log s ++ tr
    /\ drain object_type payload (len batch_records) after tr
    /\ forall b l,
         r = Ok (b, l) ->
         b = batch_records ++ collected tr
         /\ (Py.truthy (last_cursor after tr) = false \/ LEG_CAP <= len b).
Proof.
  revert payload batch_records last_id after s.
  induction fuel as [|fuel IH]; intros payload batch_records last_id after s
    Hlt Hrun; cbn [_process_search_batch_loop] in Hrun;
    destruct (Py.truthy after) eqn:Hafter; cbn [negb] in Hrun.
  2,4: injection Hrun as <- <-; exists []; cbn; rewrite !app_nil_r;
       split; [reflexivity|]; split; [constructor|];
       intros b l [= <- <-]; split; [reflexivity|now left].
  - injection Hrun as <- <-. exists []. cbn. rewrite app_nil_r.
    split; [reflexivity|]. split; [constructor|intros ? ? [=]].
  - unfold bind at 1 in Hrun. rewrite call_run in Hrun.
    set (c := PostSearch _ _) in Hrun.
    destruct (request c (world s)) as [[e|resp] w]; cbn [fst snd] in Hrun.
    { injection Hrun as <- <-. exists [(c, inl e)]. split; [reflexivity|].
      split; [subst c; now apply drain_failed|intros ? ? [=]]. }
    set (s1 := mkSt w _) in Hrun.
    unfold bind at 1 in Hrun.
    destruct (append_page_run (results resp) batch_records last_id s1)
      as [Hs1 Hb].
    destruct (append_page (results resp) batch_records last_id s1)
      as [[[b1 l1]|x|] s2]; cbn [fst snd] in Hs1, Hb; subst s2.
    2,3: injection Hrun as <- <-; exists [(c, inr resp)];
         split; [reflexivity|];
         split; [subst c; apply drain_page; [assumption..|apply drain_stop]|
                 intros ? ? [=]].
    specialize (Hb b1 l1 eq_refl). fold (page_refs resp) in Hb.
    assert (Hlen : len b1 = len batch_records + len (results resp))
      by (rewrite Hb, len_app, len_page_refs; reflexivity).
    destruct (LEG_CAP <=? len b1) eqn:Hcap.
    + injection Hrun as <- <-.
      exists [(c, inr resp)]. split; [reflexivity|].
      split; [subst c; apply drain_page; [assumption..|apply drain_stop]|].
      intros b l [= <- <-]. split.
      * rewrite Hb. cbn. now rewrite app_nil_r.
      * right. now apply Z.leb_le.
    + apply Z.leb_gt in Hcap.
      destruct (IH (set_after payload after) b1 l1 (paging_next_after resp)
                  s1 Hcap Hrun) as (tr & Hlog & Hdrain & Hres).
      exists ((c, inr resp) :: tr). split; [|split].
      * rewrite Hlog. subst s1. cbn [log]. now rewrite <- app_assoc.
      * subst c. apply drain_page; [assumption..|]. rewrite <- Hlen.
        now apply (drain_set_after _ _ after).
      * intros b l Hr. destruct (Hres b l Hr) as [-> Hstop].
        split; [|exact Hstop].
        rewrite Hb. cbn. now rewrite <- app_assoc.
Qed.

(** C4 (as amended). Within one leg whose first page holds fewer than
    [LEG_CAP] records, against any store: every pagination request
    carries the leg's own payload (same predicates, sort and page size)
    with the cursor of the page received last, and is issued only while
    that cursor is usable and fewer than [LEG_CAP] records have been
    accumulated; a leg that returns either saw no further cursor or holds
    at least [LEG_CAP] records, whatever cursor remains. The condition on
    the first page is needed: the ceiling is tested after each pagination
    response and not before the first pagination request. *)
Theorem process_search_batch_stops_at_cap fuel object_type initial_response
  payload (s s' : St W) r tr :
  len (results initial_response) < LEG_CAP ->
  _process_search_batch fuel object_type initial_response payload s = (r, s') ->
  log s' = log s ++ tr ->
  drain object_type payload (len (results initial_response))
    (paging_next_after initial_response) tr
  /\ forall b l,
       r = Ok (b, l) ->
       b = page_refs initial_response ++ collected tr
       /\ (Py.truthy (last_cursor (paging_next_after initial_response) tr)
           = false
           \/ LEG_CAP <= len b).
Proof.
  intros Hfirst Hrun Hlog. unfold _process_search_batch, bind in Hrun.
  destruct (append_page_run (results initial_response) [] 0 s) as [Hs1 Hb].
  destruct (append_page (results initial_response) [] 0 s)
    as [[[b1 l1]|x|] s1]; cbn [fst snd] in Hs1, Hb; subst s1.
  2,3: injection Hrun as <- <-;
       assert (tr = []) as -> by
         (apply (app_inv_head (log s)); now rewrite app_nil_r);
       split; [constructor|intros ? ? [=]].
  specialize (Hb b1 l1 eq_refl). cbn [app] in Hb.
  fold (page_refs initial_response) in Hb.
  assert (Hlen : len b1 = len (results initial_response))
    by (rewrite Hb; apply len_page_refs).
  destruct (process_search_batch_loop_run fuel object_type payload b1 l1
              (paging_next_after initial_response) s s' r)
    as (tr' & Hlog' & Hdrain & Hres); [lia|exact Hrun|].
  rewrite Hlog in Hlog'. apply app_inv_head in Hlog' as <-.
  rewrite Hlen in Hdrain. split; [exact Hdrain|].
  intros b l Hr. destruct (Hres b l Hr) as [-> Hstop].
  subst b1. split; [reflexivity|exact Hstop].
Qed.

End Leg.

(** ** Filtered search enumerator: progress from leg to leg *)

Section Progress.
Context {W : Type} `{HubspotClient W}.

Lemma append_page_last_id results batch_records last_id (s s' : St W) b l :
  is_last_id batch_records last_id ->
  append_page results batch_records last_id s = (Ok (b, l), s') ->
  is_last_id b l.
Proof.
  revert batch_records last_id.
  induction results as [|record rest IH]; intros batch_records last_id Hinv.
  - intros [= <- <- <-]. exact Hinv.
  - cbn [append_page]. unfold bind, int.
    destruct (raw_id record) as [x|] eqn:Hx; [|discriminate].
    destruct (Py.int_of_str x) as [z|] eqn:Hz; [|discriminate].
    cbn [ret]. apply IH. intros y Hy. rewrite last_snoc in Hy.
    injection Hy as <-. exists x. auto.
Qed.

Lemma process_search_batch_loop_last_id fuel object_type payload batch_records
  last_id after (s s' : St W) b l :
  is_last_id batch_records last_id ->
  _process_search_batch_loop fuel object_type payload batch_records last_id
    after s = (Ok (b, l), s') ->
  is_last_id b l.
Proof.
  revert payload batch_records last_id after s.
  induction fuel as [|fuel IH]; intros payload batch_records last_id after s
    Hinv; cbn [_process_search_batch_loop];
    (destruct (negb (Py.truthy after)); [now intros [= <- <- <-]|]).
  - discriminate.
  - unfold bind at 1. rewrite call_run.
    destruct (request _ (world s)) as [[e|resp] w]; cbn [fst snd];
      [discriminate|].
    unfold bind at 1.
    destruct (append_page _ _ _ _) as [[[b1 l1]|x|] s2] eqn:Happ;
      [|discriminate..].
    apply append_page_last_id in Happ; [|exact Hinv].
    destruct (LEG_CAP <=? len b1); [now intros [= <- <- <-]|].
    now apply IH.
Qed.

(** After a leg that drained at least one record, the id handed back as
    the next threshold is the numeric id of the last record drained. *)
Lemma process_search_batch_last_id fuel object_type initial_response payload
  (s s' : St W) b l :
  _process_search_batch fuel object_type initial_response payload s
  = (Ok (b, l), s') ->
  is_last_id b l.
Proof.
  unfold _process_search_batch, bind.
  destruct (append_page _ _ _ _) as [[[b1 l1]|x|] s2] eqn:Happ;
    [|discriminate..].
  apply append_page_last_id in Happ; [|intros x [=]].
  now apply process_search_batch_loop_last_id.
Qed.

End Progress.

Section EmptyLeg.
Context {W : Type} `{HubspotClient W}.

(** A leg whose first page is empty and without cursor issues one request
    and returns without raising, whatever total the store reported. *)
Lemma search_leg_zero_records page_fuel object_type caller_filters all_records
  last_record_id (s : St W) resp w :
  request (leg_request object_type caller_filters last_record_id) (world s)
  = (inr resp, w) ->
  default 0 (total resp) <> 0 ->
  results resp = [] ->
  Py.truthy (paging_next_after resp) = false ->
  _search_records_leg page_fuel object_type (PyList caller_filters) all_records
    last_record_id s
  = (Ok (if default 0 (total resp) <? 10000 then Break else Continue,
         all_records, 0),
     mkSt w (log s ++ [(leg_request object_type caller_filters last_record_id,
                        inr resp)])).
Proof.
  intros Hreq Htotal Hres Hcur.
  unfold _search_records_leg, _add_id_threshold_filter.
  unfold bind at 1, ret at 1. rewrite try_reraise.
  unfold bind at 1. rewrite call_run. fold (id_filter last_record_id).
  fold (leg_request object_type caller_filters last_record_id).
  rewrite Hreq. cbn [fst snd].
  destruct (default 0 (total resp) =? 0) eqn:E;
    [apply Z.eqb_eq in E; contradiction|].
  unfold _process_search_batch. rewrite Hres. cbn [append_page].
  unfold bind at 1. unfold bind at 1. unfold ret at 1.
  destruct page_fuel; cbn [_process_search_batch_loop]; rewrite Hcur;
    cbn [negb]; unfold ret at 1; rewrite app_nil_r;
    now destruct (default 0 (total resp) <? 10000).
Qed.

End EmptyLeg.

(** The enumeration against a store that keeps reporting 10000 matches
    without returning any: every leg is one successful request at
    threshold 0 followed by a new leg. *)
Lemma stuck_search_loop fuel page_fuel all_records (lg : list (Call * Reply)) :
  _search_records_loop fuel page_fuel "contacts" (PyList []) all_records 0
    (mkSt stuck_server lg)
  = (OutOfFuel,
     mkSt stuck_server
       (lg ++ replicate fuel
                (leg_request "contacts" [] 0, stuck_server (Delete "")))).
Proof.
  revert lg. induction fuel as [|fuel IH]; intros lg.
  - cbn. now rewrite app_nil_r.
  - cbn [_search_records_loop].
    erewrite bind_ok.
    2:{ apply (search_leg_zero_records (W := Call -> Reply)) with
          (resp := {| total := Some 10000; results := [];
                      paging_next_after := None |}) (w := stuck_server);
          [reflexivity|discriminate|reflexivity|reflexivity]. }
    cbn [default total Z.ltb Z.compare Pos.compare Pos.compare_cont].
    cbn [log]. rewrite IH. cbn [replicate].
    now rewrite <- app_assoc.
Qed.

(** C2, as stated, fails: against that store every leg reports a positive
    total and drains no record, and no error is ever raised. There is no
    number of legs after which the search has returned or raised; with
    three legs allowed, the log shows three successful requests, all at
    threshold 0. *)
Lemma search_spins_on_empty_capped_legs :
  (~ exists fuel,
       (_search_records fuel "contacts" (PyList []) (start stuck_server)).1
       <> OutOfFuel)
  /\ _search_records 3 "contacts" (PyList []) (start stuck_server)
     = (OutOfFuel,
        mkSt stuck_server
          (replicate 3
             (leg_request "contacts" [] 0,
              inr {| total := Some 10000; results := [];
                     paging_next_after := None |}))).
Proof.
  split.
  - intros [fuel Hfuel]. apply Hfuel.
    unfold _search_records, start. now rewrite stuck_search_loop.
  - unfold _search_records, start. now rewrite stuck_search_loop.
Qed.

(** ** [str] and [int] on identifiers *)

Section Decimal.

Lemma parse_digits_acc d p :
  Py.parse_digits (Zpos p) true (digits d) = Some (Zpos (Pos.of_uint_acc d p)).
Proof.
  revert p. unfold digits.
  induction d as [|d IH|d IH|d IH|d IH|d IH|d IH|d IH|d IH|d IH|d IH];
    intros p; [reflexivity|..];
    cbn [NilEmpty.string_of_uint list_ascii_of_string Py.parse_digits
         Pos.of_uint_acc];
    match goal with
    | |- context [Py.digit_of ?c] =>
        let v := eval vm_compute in (Py.digit_of c) in
        change (Py.digit_of c) with v
    end;
    cbv iota; rewrite <- IH; f_equal; lia.
Qed.

Lemma parse_digits_zero d :
  Py.parse_digits 0 true (digits d) = Some (Z.of_N (Pos.of_uint d)).
Proof.
  unfold digits.
  induction d as [|d IH|d IH|d IH|d IH|d IH|d IH|d IH|d IH|d IH|d IH];
    [reflexivity|exact IH|..];
    cbn [NilEmpty.string_of_uint list_ascii_of_string Py.parse_digits
         Pos.of_uint];
    match goal with
    | |- context [Py.digit_of ?c] =>
        let v := eval vm_compute in (Py.digit_of c) in
        change (Py.digit_of c) with v
    end;
    cbv iota; apply (parse_digits_acc d).
Qed.

(** The first character of a decimal numeral. *)
Lemma digits_head d :
  d <> Nil ->
  exists c l,
    digits d = c :: l
    /\ Py.is_space c = false
    /\ Ascii.eqb c "-" = false
    /\ Ascii.eqb c "+" = false
    /\ Py.parse_digits 0 false (c :: l) = Py.parse_digits 0 true (c :: l).
Proof.
  intros Hd. destruct d; [congruence|..]; eexists _, _;
    (split; [reflexivity|]); repeat split; reflexivity.
Qed.

Lemma digits_no_space d : Forall (fun c => Py.is_space c = false) (digits d).
Proof.
  unfold digits. induction d; constructor; try reflexivity; assumption.
Qed.

Lemma drop_spaces_id l :
  Forall (fun c => Py.is_space c = false) l -> Py.drop_spaces l = l.
Proof. destruct 1 as [|c l Hc _]; [reflexivity|]. cbn. now rewrite Hc. Qed.

Lemma strip_digits d : Py.strip (digits d) = digits d.
Proof.
  unfold Py.strip.
  rewrite (drop_spaces_id (digits d)) by apply digits_no_space.
  rewrite drop_spaces_id; [apply rev_involutive|].
  apply List.Forall_rev, digits_no_space.
Qed.

(** [int(str(n)) == n] for the non-negative integers the engine and the
    store exchange. *)
Lemma int_of_str_str z : 0 <= z -> Py.int_of_str (Py.str z) = Some z.
Proof.
  intros Hz. destruct z as [|p|p]; [reflexivity| |lia].
  unfold Py.int_of_str, Py.str. cbn [Z.to_int NilEmpty.string_of_int].
  fold (digits (Pos.to_uint p)). rewrite strip_digits.
  assert (Hnil : Pos.to_uint p <> Nil).
  { intros E. pose proof (DecimalPos.Unsigned.of_to p) as Hp.
    rewrite E in Hp. discriminate. }
  destruct (digits_head _ Hnil) as (c & l & E & _ & Hm & Hp & Hfresh).
  rewrite E, Hm, Hp, Hfresh, <- E, parse_digits_zero.
  now rewrite DecimalPos.Unsigned.of_to.
Qed.

Lemma str_truthy z : 0 <= z -> Py.truthy (Some (Py.str z)) = true.
Proof.
  intros Hz. pose proof (int_of_str_str z Hz) as E.
  unfold Py.truthy. destruct (Py.str z); [discriminate|reflexivity].
Qed.

Lemma str_inj z1 z2 : 0 <= z1 -> 0 <= z2 -> Py.str z1 = Py.str z2 -> z1 = z2.
Proof.
  intros H1 H2 E. apply (f_equal Py.int_of_str) in E.
  rewrite !int_of_str_str in E by assumption. congruence.
Qed.

End Decimal.

(** ** Completeness of the search on the synthetic store *)


Section IdLists.

Lemma ids_from_seqZ a n : ids_from a n = seqZ a (Z.of_nat n).
Proof.
  revert a. induction n as [|n IH]; intros a; [reflexivity|].
  cbn [ids_from]. rewrite IH, (seqZ_cons a) by lia.
  f_equal. f_equal; lia.
Qed.

Lemma ids_from_to_nat a n : 0 <= n -> ids_from a (Z.to_nat n) = seqZ a n.
Proof. intros Hn. rewrite ids_from_seqZ. f_equal. lia. Qed.

Lemma filter_all {A} (f : A -> bool) l :
  Forall (fun x => f x = true) l -> List.filter f l = l.
Proof. induction 1 as [|x l Hx _ IH]; cbn; [|rewrite Hx, IH]; reflexivity. Qed.

Lemma filter_none {A} (f : A -> bool) l :
  Forall (fun x => f x = false) l -> List.filter f l = [].
Proof. induction 1 as [|x l Hx _ IH]; cbn; [|rewrite Hx, IH]; reflexivity. Qed.

Lemma filter_above t n :
  0 <= t <= n ->
  List.filter (fun i => t <? i) (seqZ 1 n) = seqZ (t + 1) (n - t).
Proof.
  intros Ht. replace n with (t + (n - t)) at 1 by lia.
  rewrite seqZ_app, List.filter_app by lia.
  rewrite filter_none, filter_all; [cbn [app]; f_equal; lia| |].
  - apply Forall_seqZ. intros i Hi. apply Z.ltb_lt. lia.
  - apply Forall_seqZ. intros i Hi. apply Z.ltb_ge. lia.
Qed.

Lemma drop_seqZ a n o :
  0 <= o <= n -> drop (Z.to_nat o) (seqZ a n) = seqZ (a + o) (n - o).
Proof.
  intros Ho. replace n with (o + (n - o)) at 1 by lia.
  rewrite seqZ_app by lia. apply drop_app_length'. rewrite length_seqZ. lia.
Qed.

Lemma take_seqZ a n k :
  0 <= k -> take (Z.to_nat k) (seqZ a n) = seqZ a (Z.min k n).
Proof.
  intros Hk. destruct (Z.le_gt_cases k n) as [Hle|Hgt].
  - rewrite Z.min_l by lia. replace n with (k + (n - k)) at 1 by lia.
    rewrite seqZ_app by lia. apply take_app_length'. rewrite length_seqZ. lia.
  - rewrite Z.min_r by lia. apply take_ge. rewrite length_seqZ. lia.
Qed.

Lemma len_seqZ a n : 0 <= n -> len (seqZ a n) = n.
Proof. intros Hn. unfold len. rewrite length_seqZ. lia. Qed.

Lemma last_seqZ a n : 0 < n -> last (seqZ a n) = Some (a + n - 1).
Proof.
  intros Hn. replace n with ((n - 1) + 1) by lia.
  rewrite seqZ_app by lia. change (seqZ (a + (n - 1)) 1) with [a + (n - 1)].
  rewrite last_snoc. f_equal. lia.
Qed.

Lemma refs_from_seqZ a n :
  0 <= n -> refs_from a n = (fun i => {| id := Some (Py.str i) |}) <$> seqZ a n.
Proof. intros Hn. unfold refs_from. now rewrite ids_from_to_nat. Qed.

Lemma refs_from_app a n1 n2 :
  0 <= n1 -> 0 <= n2 ->
  refs_from a (n1 + n2) = refs_from a n1 ++ refs_from (a + n1) n2.
Proof.
  intros H1 H2. rewrite !refs_from_seqZ by lia.
  now rewrite seqZ_app, fmap_app by lia.
Qed.

Lemma refs_from_NoDup a n : 0 <= a -> NoDup (refs_from a n).
Proof.
  intros Ha. destruct (Z.le_gt_cases 0 n) as [Hn|Hn].
  - rewrite refs_from_seqZ by lia.
    apply NoDup_fmap_2_strong; [|apply NoDup_seqZ].
    intros x y Hx Hy [= E]. apply elem_of_seqZ in Hx, Hy.
    apply str_inj in E; lia.
  - unfold refs_from. replace (Z.to_nat n) with 0%nat by lia. constructor.
Qed.

End IdLists.

Section SyntheticStoreFacts.
Variable st : SyntheticStore.
Variable caller_filters : list Filter.
Hypothesis Hsize : 0 <= store_size st.
Hypothesis Hopaque : opaque caller_filters.

Lemma id_pred_opaque f :
  propertyName f <> "hs_object_id" -> id_pred f = fun _ => true.
Proof.
  intros Hf. unfold id_pred.
  apply String.eqb_neq in Hf. now rewrite Hf.
Qed.

Lemma forallb_opaque (fs : list Filter) i :
  opaque fs -> forallb (fun p => p i) (id_pred <$> fs) = true.
Proof.
  induction 1 as [|f fs' Hf _ IH]; [reflexivity|].
  rewrite fmap_cons. cbn [forallb]. now rewrite id_pred_opaque by exact Hf.
Qed.

Lemma id_pred_id_filter t : 0 <= t -> id_pred (id_filter t) = fun i => t <? i.
Proof.
  intros Ht. unfold id_pred, id_filter. cbn [propertyName operator value].
  change ("hs_object_id" =? "hs_object_id")%string with true.
  change ("GT" =? "GT")%string with true. cbn [andb].
  now rewrite int_of_str_str.
Qed.

Lemma matching_from t :
  0 <= t <= store_size st ->
  matching st (caller_filters ++ [id_filter t])
  = seqZ (t + 1) (store_size st - t).
Proof.
  intros Ht. unfold matching. rewrite ids_from_to_nat by exact Hsize.
  rewrite <- filter_above by exact Ht.
  apply List.filter_ext. intros i.
  rewrite fmap_app, forallb_app. cbn [fmap list_fmap forallb].
  rewrite id_pred_id_filter by lia. rewrite andb_true_r.
  now rewrite forallb_opaque by exact Hopaque.
Qed.

Lemma synthetic_search_page t o cursor :
  0 <= t <= store_size st ->
  0 <= o <= store_size st - t ->
  o + 200 <= LEG_CAP ->
  (cursor = None /\ o = 0) \/ cursor = Some (Py.str o) ->
  synthetic_search st
    (set_after (_create_search_payload (caller_filters ++ [id_filter t]))
       cursor)
  = inr (synthetic_page st t o).
Proof.
  intros Ht Ho Hcap Hcur. unfold synthetic_search.
  cbn [after set_after limit sorts filters _create_search_payload].
  assert (E : match cursor with
              | Some a => Py.int_of_str a
              | None => Some 0
              end = Some o).
  { destruct Hcur as [[-> ->]| ->]; [reflexivity|].
    apply int_of_str_str. lia. }
  rewrite E.
  replace (o <? 0) with false by (symmetry; apply Z.ltb_ge; lia).
  replace (LEG_CAP <? o + 200) with false by (symmetry; apply Z.ltb_ge; lia).
  rewrite bool_decide_eq_true_2 by reflexivity. cbn [orb negb Z.ltb Z.compare].
  rewrite matching_from by exact Ht.
  rewrite len_seqZ by lia.
  change (Z.to_nat 200) with (Z.to_nat 200).
  rewrite drop_seqZ by lia. rewrite take_seqZ by lia.
  unfold synthetic_page. repeat f_equal; lia.
Qed.

End SyntheticStoreFacts.

Section SyntheticLeg.
Variable st : SyntheticStore.
Variable caller_filters : list Filter.
Variable object_type : string.
Hypothesis Hopaque : opaque caller_filters.

Lemma append_page_ids {W} (l : list Z) batch_records last_id (s : St W) :
  Forall (fun i => 0 <= i) l ->
  append_page (raw_records l) batch_records last_id s
  = (Ok (batch_records ++ ((fun i => {| id := Some (Py.str i) |}) <$> l),
         default last_id (last l)), s).
Proof.
  intros Hl. revert batch_records last_id.
  induction Hl as [|x l Hx _ IH]; intros batch_records last_id.
  - cbn. now rewrite app_nil_r.
  - unfold raw_records. rewrite fmap_cons. fold (raw_records l).
    cbn [append_page raw_id]. unfold bind, int.
    rewrite int_of_str_str by exact Hx. cbn [ret]. rewrite IH.
    rewrite fmap_cons, <- app_assoc. cbn [app].
    rewrite (last_cons x l). destruct (last l); reflexivity.
Qed.

Lemma append_page_seqZ {W} a n batch_records last_id (s : St W) :
  0 <= a -> 0 < n ->
  append_page (raw_records (seqZ a n)) batch_records last_id s
  = (Ok (batch_records ++ refs_from a n, a + n - 1), s).
Proof.
  intros Ha Hn. rewrite append_page_ids.
  - rewrite last_seqZ by exact Hn. now rewrite refs_from_seqZ by lia.
  - apply Forall_seqZ. lia.
Qed.

Lemma process_search_batch_loop_no_cursor {W} `{HubspotClient W} fuel payload
  batch_records last_id after (s : St W) :
  Py.truthy after = false ->
  _process_search_batch_loop fuel object_type payload batch_records last_id
    after s
  = (Ok (batch_records, last_id), s).
Proof. intros Hc. destruct fuel; cbn; now rewrite Hc. Qed.

Variable t : Z.
Hypothesis Ht : 0 <= t.
Hypothesis Hm : 1 <= store_size st - t.

Local Abbreviation m := (store_size st - t).
Local Abbreviation base :=
  (_create_search_payload (caller_filters ++ [id_filter t])).

(** One request of the leg at threshold [t], at offset [o]. *)
Lemma synthetic_call cursor o lg :
  0 <= o <= m ->
  o + 200 <= LEG_CAP ->
  (cursor = None /\ o = 0) \/ cursor = Some (Py.str o) ->
  exists lg',
    call (PostSearch (search_endpoint object_type) (set_after base cursor))
      (mkSt st lg)
    = (Ok (synthetic_page st t o), mkSt st lg').
Proof.
  intros Ho Hcap Hcur. rewrite call_run.
  cbn [world request synthetic_client fst snd].
  unfold request, synthetic_client. cbn [fst snd].
  rewrite (synthetic_search_page st caller_filters ltac:(lia) Hopaque t o
             cursor) by (assumption || lia).
  eexists. reflexivity.
Qed.

(** The pages of the leg after the first [j] ones. *)
Lemma synthetic_drain (k : nat) :
  forall (j : Z) (fuel : nat) lg c0,
    1 <= j <= 49 ->
    j + Z.of_nat k = 50 ->
    200 * j < m ->
    (k <= fuel)%nat ->
    exists lg',
      _process_search_batch_loop fuel object_type (set_after base c0)
        (refs_from (t + 1) (200 * j)) (t + 200 * j)
        (Some (Py.str (200 * j))) (mkSt st lg)
      = (Ok (refs_from (t + 1) (Z.min m 10000), t + Z.min m 10000),
         mkSt st lg').
Proof.
  induction k as [|k IH]; intros j fuel lg c0 Hj Hjk Hjm Hfuel; [lia|].
  destruct fuel as [|fuel]; [lia|].
  cbn [_process_search_batch_loop].
  rewrite str_truthy by lia. cbn [negb].
  rewrite set_after_twice.
  destruct (synthetic_call (Some (Py.str (200 * j))) (200 * j) lg)
    as (lg1 & Hcall); [lia|unfold LEG_CAP; lia|now right|].
  erewrite bind_ok by exact Hcall.
  unfold synthetic_page at 1. cbn [results].
  erewrite bind_ok by (apply append_page_seqZ; lia).
  rewrite <- refs_from_app by lia.
  replace (t + 1 + 200 * j + Z.min 200 (m - 200 * j) - 1)
    with (t + Z.min (200 * (j + 1)) m) by lia.
  replace (200 * j + Z.min 200 (m - 200 * j))
    with (Z.min (200 * (j + 1)) m) by lia.
  assert (Hlen : len (refs_from (t + 1) (Z.min (200 * (j + 1)) m))
                 = Z.min (200 * (j + 1)) m).
  { rewrite refs_from_seqZ by lia. unfold len. rewrite length_fmap.
    fold (len (seqZ (t + 1) (Z.min (200 * (j + 1)) m))).
    apply len_seqZ. lia. }
  rewrite Hlen. unfold LEG_CAP.
  destruct (10000 <=? Z.min (200 * (j + 1)) m) eqn:Hcap.
  - apply Z.leb_le in Hcap. exists lg1. unfold ret.
    replace (Z.min (200 * (j + 1)) m) with (Z.min m 10000) by lia.
    reflexivity.
  - apply Z.leb_gt in Hcap. unfold synthetic_page. cbn [paging_next_after].
    destruct (200 * j + 200 <? m) eqn:Hmore.
    + apply Z.ltb_lt in Hmore.
      replace (Z.min (200 * (j + 1)) m) with (200 * (j + 1)) by lia.
      replace (200 * j + 200) with (200 * (j + 1)) by lia.
      apply (IH (j + 1)); lia.
    + apply Z.ltb_ge in Hmore.
      rewrite process_search_batch_loop_no_cursor by reflexivity.
      exists lg1.
      replace (Z.min (200 * (j + 1)) m) with (Z.min m 10000) by lia.
      reflexivity.
Qed.

Lemma reported_total_positive : (reported_total st m =? 0) = false.
Proof.
  apply Z.eqb_neq. unfold reported_total, LEG_CAP.
  destruct (caps_total st); lia.
Qed.

Lemma reported_total_below_cap :
  (reported_total st m <? 10000) = (m <? 10000).
Proof.
  unfold reported_total, LEG_CAP. destruct (caps_total st); [|reflexivity].
  destruct (m <? 10000) eqn:E.
  - apply Z.ltb_lt in E. apply Z.ltb_lt. lia.
  - apply Z.ltb_ge in E. apply Z.ltb_ge. lia.
Qed.

(** The leg at threshold [t] drains the next [min m 10000] records and
    hands back the id of the last one. *)
Lemma synthetic_batch (page_fuel : nat) lg :
  (49 <= page_fuel)%nat ->
  exists lg',
    _process_search_batch page_fuel object_type (synthetic_page st t 0) base
      (mkSt st lg)
    = (Ok (refs_from (t + 1) (Z.min m 10000), t + Z.min m 10000),
       mkSt st lg').
Proof.
  intros Hfuel. unfold _process_search_batch.
  unfold synthetic_page at 1. cbn [results].
  erewrite bind_ok by (apply append_page_seqZ; lia).
  cbn [app]. unfold synthetic_page. cbn [paging_next_after].
  replace (t + 1 + 0 + Z.min 200 (m - 0) - 1) with (t + Z.min 200 m) by lia.
  replace (t + 1 + 0) with (t + 1) by lia.
  replace (m - 0) with m by lia.
  destruct (0 + 200 <? m) eqn:Hmore.
  - apply Z.ltb_lt in Hmore.
    replace (Z.min 200 m) with (200 * 1) by lia.
    change (0 + 200) with (200 * 1).
    change base with (set_after base None).
    apply (synthetic_drain 49 1); lia.
  - apply Z.ltb_ge in Hmore.
    rewrite process_search_batch_loop_no_cursor by reflexivity.
    exists lg. replace (Z.min m 10000) with (Z.min 200 m) by lia.
    reflexivity.
Qed.

Lemma synthetic_leg (page_fuel : nat) all_records lg :
  (49 <= page_fuel)%nat ->
  exists lg',
    _search_records_leg page_fuel object_type (PyList caller_filters)
      all_records t (mkSt st lg)
    = (Ok (if m <? 10000 then Break else Continue,
           all_records ++ refs_from (t + 1) (Z.min m 10000),
           t + Z.min m 10000),
       mkSt st lg').
Proof.
  intros Hfuel. unfold _search_records_leg, _add_id_threshold_filter.
  unfold bind at 1, ret at 1. rewrite try_reraise. fold (id_filter t).
  destruct (synthetic_call None 0 lg) as (lg1 & Hcall);
    [lia|unfold LEG_CAP; lia|now left|].
  erewrite bind_ok by exact Hcall.
  replace (default 0 (total (synthetic_page st t 0)))
    with (reported_total st m) by reflexivity.
  rewrite reported_total_positive, reported_total_below_cap.
  destruct (synthetic_batch page_fuel lg1 Hfuel) as (lg2 & Hbatch).
  erewrite bind_ok by exact Hbatch.
  exists lg2. now destruct (m <? 10000).
Qed.

End SyntheticLeg.

(** ** Filtered search enumerator: a leg that reaches the depth ceiling *)

Section SyntheticCap.
Variable st : SyntheticStore.
Variable caller_filters : list Filter.
Variable object_type : string.
Hypothesis Hopaque : opaque caller_filters.
Variable t : Z.
Hypothesis Ht : 0 <= t.
Hypothesis Hdeep : 10000 < store_size st - t.

Local Abbreviation m := (store_size st - t).
Local Abbreviation base :=
  (_create_search_payload (caller_filters ++ [id_filter t])).

Lemma synthetic_call_log cursor o lg :
  0 <= o <= m ->
  o + 200 <= LEG_CAP ->
  (cursor = None /\ o = 0) \/ cursor = Some (Py.str o) ->
  call (PostSearch (search_endpoint object_type) (set_after base cursor))
    (mkSt st lg)
  = (Ok (synthetic_page st t o),
     mkSt st
       (lg ++ [(PostSearch (search_endpoint object_type)
                  (set_after base cursor),
                inr (synthetic_page st t o))])).
Proof.
  intros Ho Hcap Hcur. rewrite call_run.
  cbn [world request synthetic_client fst snd].
  unfold request, synthetic_client. cbn [fst snd log].
  rewrite (synthetic_search_page st caller_filters ltac:(lia) Hopaque t o
             cursor) by (assumption || lia).
  reflexivity.
Qed.

(** The pagination requests of a leg with more than [LEG_CAP] matches:
    the pages 1 to 49 are asked for, then the leg stops. *)
Lemma synthetic_drain_capped (k : nat) :
  forall (j : Z) (fuel : nat) lg c0,
    1 <= j <= 49 ->
    j + Z.of_nat k = 50 ->
    (k <= fuel)%nat ->
    _process_search_batch_loop fuel object_type (set_after base c0)
      (refs_from (t + 1) (200 * j)) (t + 200 * j)
      (Some (Py.str (200 * j))) (mkSt st lg)
    = (Ok (refs_from (t + 1) 10000, t + 10000),
       mkSt st (lg ++ synthetic_trace st object_type base t j k)).
Proof.
  induction k as [|k IH]; intros j fuel lg c0 Hj Hjk Hfuel; [lia|].
  destruct fuel as [|fuel]; [lia|].
  cbn [_process_search_batch_loop synthetic_trace].
  rewrite str_truthy by lia. cbn [negb].
  rewrite set_after_twice.
  erewrite bind_ok
    by (apply (synthetic_call_log (Some (Py.str (200 * j))) (200 * j));
        [lia|unfold LEG_CAP; lia|now right]).
  unfold synthetic_page at 1. cbn [results].
  erewrite bind_ok by (apply append_page_seqZ; lia).
  rewrite <- refs_from_app by lia.
  replace (t + 1 + 200 * j + Z.min 200 (m - 200 * j) - 1)
    with (t + 200 * (j + 1)) by lia.
  replace (200 * j + Z.min 200 (m - 200 * j)) with (200 * (j + 1)) by lia.
  assert (Hlen : len (refs_from (t + 1) (200 * (j + 1))) = 200 * (j + 1)).
  { rewrite refs_from_seqZ by lia. unfold len. rewrite length_fmap.
    fold (len (seqZ (t + 1) (200 * (j + 1)))). apply len_seqZ. lia. }
  rewrite Hlen. unfold LEG_CAP.
  destruct (10000 <=? 200 * (j + 1)) eqn:Hcap.
  - apply Z.leb_le in Hcap. unfold ret.
    assert (k = 0%nat) as -> by lia. cbn [synthetic_trace].
    replace (200 * (j + 1)) with 10000 by lia. reflexivity.
  - apply Z.leb_gt in Hcap. unfold synthetic_page at 1.
    cbn [paging_next_after].
    replace (200 * j + 200 <? m) with true by (symmetry; apply Z.ltb_lt; lia).
    replace (200 * j + 200) with (200 * (j + 1)) by lia.
    rewrite (IH (j + 1)) by lia.
    now rewrite <- app_assoc.
Qed.

Lemma synthetic_batch_capped (page_fuel : nat) lg :
  (49 <= page_fuel)%nat ->
  _process_search_batch page_fuel object_type (synthetic_page st t 0) base
    (mkSt st lg)
  = (Ok (refs_from (t + 1) 10000, t + 10000),
     mkSt st (lg ++ synthetic_trace st object_type base t 1 49)).
Proof.
  intros Hfuel. unfold _process_search_batch.
  unfold synthetic_page at 1. cbn [results].
  erewrite bind_ok by (apply append_page_seqZ; lia).
  cbn [app]. unfold synthetic_page at 1. cbn [paging_next_after].
  replace (t + 1 + 0 + Z.min 200 (m - 0) - 1) with (t + 200 * 1) by lia.
  replace (t + 1 + 0) with (t + 1) by lia.
  replace (Z.min 200 (m - 0)) with (200 * 1) by lia.
  replace (0 + 200 <? m) with true by (symmetry; apply Z.ltb_lt; lia).
  change (0 + 200) with (200 * 1).
  change base with (set_after base None) at 1.
  now apply (synthetic_drain_capped 49 1).
Qed.

Lemma synthetic_trace_length payload j k :
  length (synthetic_trace st object_type payload t j k) = k.
Proof.
  revert j. induction k as [|k IH]; intros j; [reflexivity|].
  cbn [synthetic_trace length]. now rewrite IH.
Qed.

(** The page received last, the one at offset 9800, still carries a
    cursor. *)
Lemma synthetic_trace_last_cursor payload (k : nat) :
  forall j c,
    0 <= j ->
    j + Z.of_nat (S k) = 50 ->
    last_cursor c (synthetic_trace st object_type payload t j (S k))
    = Some (Py.str 10000).
Proof.
  induction k as [|k IH]; intros j c Hj Hjk.
  - cbn [synthetic_trace last_cursor synthetic_page paging_next_after].
    replace (200 * j + 200 <? m) with true by (symmetry; apply Z.ltb_lt; lia).
    do 2 f_equal. lia.
  - change (synthetic_trace st object_type payload t j (S (S k)))
      with ((PostSearch (search_endpoint object_type)
               (set_after payload (Some (Py.str (200 * j)))),
             inr (synthetic_page st t (200 * j)))
              :: synthetic_trace st object_type payload t (j + 1) (S k)).
    cbn [last_cursor]. apply IH; lia.
Qed.

End SyntheticCap.

Lemma process_search_batch_stops_at_cap_witness :
  let run := _process_search_batch 60 "contacts" (synthetic_page deep_store 0 0)
               first_leg_payload (start deep_store) in
  drain "contacts" first_leg_payload
    (len (results (synthetic_page deep_store 0 0)))
    (paging_next_after (synthetic_page deep_store 0 0)) (log run.2)
  /\ forall b l,
       run.1 = Ok (b, l) ->
       b = page_refs (synthetic_page deep_store 0 0) ++ collected (log run.2)
       /\ (Py.truthy
             (last_cursor (paging_next_after (synthetic_page deep_store 0 0))
                (log run.2))
           = false
           \/ LEG_CAP <= len b).
Proof.
  intros run.
  apply (process_search_batch_stops_at_cap (W := SyntheticStore) 60
           "contacts" (synthetic_page deep_store 0 0) first_leg_payload
           (start deep_store) run.2 run.1 (log run.2)).
  - vm_compute. reflexivity.
  - apply surjective_pairing.
  - symmetry. apply app_nil_l.
Defined.

(** The leg of that run is one that reaches the ceiling: against the
    store of 25000 records it issues 49 pagination requests and returns
    the records 1 to 10000, [LEG_CAP] of them, although the page received
    last carries the cursor 10000. *)
Lemma deep_leg_stops_at_cap :
  let run := _process_search_batch 60 "contacts" (synthetic_page deep_store 0 0)
               first_leg_payload (start deep_store) in
  run.1 = Ok (refs_from 1 10000, 10000)
  /\ len (refs_from 1 10000) = LEG_CAP
  /\ length (log run.2) = 49%nat
  /\ last_cursor (paging_next_after (synthetic_page deep_store 0 0))
       (log run.2)
     = Some "10000".
Proof.
  intros run.
  assert (Hrun : run
                 = (Ok (refs_from 1 10000, 10000),
                    mkSt deep_store
                      (synthetic_trace deep_store "contacts" first_leg_payload
                         0 1 49))).
  { apply (synthetic_batch_capped deep_store [] "contacts" ltac:(constructor) 0
             ltac:(lia) ltac:(reflexivity) 60 []). lia. }
  rewrite Hrun. cbn [fst snd log].
  split; [reflexivity|]. split; [|split].
  - rewrite refs_from_seqZ by lia. unfold len. rewrite length_fmap.
    fold (len (seqZ 1 10000)). now rewrite len_seqZ by lia.
  - apply synthetic_trace_length.
  - now rewrite (synthetic_trace_last_cursor deep_store "contacts" 0
                   ltac:(reflexivity) first_leg_payload 48 1) by lia.
Qed.

(** C4, as stated, fails: the ceiling is tested only after a pagination
    response. A leg whose first page already holds [LEG_CAP] records and
    carries a cursor issues one more pagination request, the one past the
    depth ceiling, which the store refuses. *)
Lemma process_search_batch_pages_past_full_first_page :
  let run := _process_search_batch 5 "contacts" full_first_page
               first_leg_payload (start deep_store) in
  len (page_refs full_first_page) = LEG_CAP
  /\ log run.2
     = [(PostSearch "/crm/v3/objects/contacts/search"
           (set_after first_leg_payload (Some "10000")),
         inl (ClientError 400))]
  /\ run.1 = Raise (HubspotError (ClientError 400)).
Proof.
  intros run.
  assert (Hrun : run
                 = (Raise (HubspotError (ClientError 400)),
                    mkSt deep_store
                      [(PostSearch "/crm/v3/objects/contacts/search"
                          (set_after first_leg_payload (Some "10000")),
                        inl (ClientError 400))])).
  { unfold run, _process_search_batch.
    unfold full_first_page at 1. cbn [results].
    erewrite bind_ok by (apply append_page_seqZ; lia).
    unfold full_first_page. cbn [paging_next_after app].
    change 5%nat with (S 4). cbn [_process_search_batch_loop].
    change (Py.truthy (Some "10000")) with true. cbn [negb].
    unfold bind at 1. rewrite call_run. reflexivity. }
  rewrite Hrun. cbn [fst snd log].
  split; [|split; reflexivity].
  rewrite len_page_refs. unfold full_first_page. cbn [results].
  unfold raw_records, len. rewrite length_fmap.
  fold (len (seqZ 1 10000)). now rewrite len_seqZ by lia.
Qed.

Section SyntheticSearch.
Variable st : SyntheticStore.
Variable caller_filters : list Filter.
Variable object_type : string.
Hypothesis Hopaque : opaque caller_filters.

Local Abbreviation N := (store_size st).

(** The leg that starts at the highest id finds nothing and ends the
    enumeration. *)
Lemma synthetic_last_leg (page_fuel : nat) all_records lg :
  0 <= N ->
  exists lg',
    _search_records_leg page_fuel object_type (PyList caller_filters)
      all_records N (mkSt st lg)
    = (Ok (Break, all_records, N), mkSt st lg').
Proof.
  intros HN. unfold _search_records_leg, _add_id_threshold_filter.
  unfold bind at 1, ret at 1. rewrite try_reraise. fold (id_filter N).
  unfold bind. rewrite call_run.
  unfold request, synthetic_client. cbn [world fst snd].
  change (_create_search_payload (caller_filters ++ [id_filter N]))
    with (set_after (_create_search_payload
                       (caller_filters ++ [id_filter N])) None).
  rewrite (synthetic_search_page st caller_filters HN Hopaque N 0 None)
    by (unfold LEG_CAP; lia || now left).
  replace (default 0 (total (synthetic_page st N 0)))
    with (reported_total st (N - N)) by reflexivity.
  replace (N - N) with 0 by lia.
  replace (reported_total st 0) with 0
    by (unfold reported_total; now destruct (caps_total st)).
  eexists. reflexivity.
Qed.

(** The legs from threshold [t] on, when the records up to [t] have been
    collected. *)
Lemma synthetic_legs (q : nat) :
  forall (t : Z) (fuel page_fuel : nat) lg,
    0 <= t <= N ->
    N - t < 10000 * Z.of_nat q ->
    (q <= fuel)%nat ->
    (49 <= page_fuel)%nat ->
    exists lg',
      _search_records_loop fuel page_fuel object_type (PyList caller_filters)
        (refs_from 1 t) t (mkSt st lg)
      = (Ok (refs_from 1 N), mkSt st lg').
Proof.
  induction q as [|q IH]; intros t fuel page_fuel lg Ht Hq Hfuel Hpf; [lia|].
  destruct fuel as [|fuel]; [lia|]. cbn [_search_records_loop].
  destruct (Z.eq_dec t N) as [->|Hne].
  - destruct (synthetic_last_leg page_fuel (refs_from 1 N) lg) as (lg1 & Hleg);
      [lia|].
    erewrite bind_ok by exact Hleg. exists lg1. reflexivity.
  - destruct (synthetic_leg st caller_filters object_type Hopaque t
                ltac:(lia) ltac:(lia) page_fuel (refs_from 1 t) lg Hpf)
      as (lg1 & Hleg).
    erewrite bind_ok by exact Hleg.
    replace (refs_from 1 t ++ refs_from (t + 1) (Z.min (N - t) 10000))
      with (refs_from 1 (t + Z.min (N - t) 10000))
      by (rewrite refs_from_app by lia; do 2 f_equal; lia).
    destruct (N - t <? 10000) eqn:Hlast.
    + apply Z.ltb_lt in Hlast. exists lg1. unfold ret.
      replace (t + Z.min (N - t) 10000) with N by lia. reflexivity.
    + apply Z.ltb_ge in Hlast.
      replace (Z.min (N - t) 10000) with 10000 by lia.
      apply IH; lia.
Qed.

End SyntheticSearch.

(** C1. On the synthetic store of [n] records with the ids 1 to [n]
    (whether it reports exact totals or totals capped at [LEG_CAP]), for
    caller predicates that hold of all records, the search returns the
    references to the ids 1, 2, ..., [n] in this order: every id of the
    store, each exactly once, for [n = 0], for [n] below, at and above
    [LEG_CAP] alike. The fuel bounds the number of legs and of pages per
    leg the loops may use; [n / 10000 + 1] legs of at most 50 pages are
    used. *)
Theorem search_records_complete (n : Z) (caps : bool) (object_type : string)
  (caller_filters : list Filter) (fuel : nat) :
  0 <= n ->
  opaque caller_filters ->
  n / 10000 + 50 <= Z.of_nat fuel ->
  exists s',
    _search_records fuel object_type (PyList caller_filters)
      (start {| store_size := n; caps_total := caps |})
    = (Ok (refs_from 1 n), s')
    /\ NoDup (refs_from 1 n)
    /\ (forall r, r ∈ refs_from 1 n
                  <-> exists i, 1 <= i <= n /\ r = {| id := Some (Py.str i) |}).
Proof.
  intros Hn Hopaque Hfuel. unfold _search_records, start.
  destruct (synthetic_legs {| store_size := n; caps_total := caps |}
              caller_filters object_type Hopaque (Z.to_nat (n / 10000 + 1))
              0 fuel fuel [])
    as (lg' & Hrun).
  - cbn [store_size]. lia.
  - cbn [store_size]. rewrite Z2Nat.id by (apply Z.add_nonneg_nonneg;
      [apply Z.div_pos|]; lia).
    pose proof (Z.mod_pos_bound n 10000 ltac:(lia)).
    pose proof (Z.div_mod n 10000 ltac:(lia)). lia.
  - lia.
  - assert (0 <= n / 10000) by (apply Z.div_pos; lia). lia.
  - exists (mkSt {| store_size := n; caps_total := caps |} lg').
    split; [exact Hrun|]. split; [apply refs_from_NoDup; lia|].
    intros r. rewrite refs_from_seqZ by exact Hn.
    rewrite list_elem_of_fmap. setoid_rewrite elem_of_seqZ.
    split; intros (i & H1 & H2); exists i; (split; [lia|assumption])
      || (split; [assumption|lia]).
Qed.

Lemma search_records_complete_witness :
  exists s',
    _search_records 50 "contacts" (PyList [created_filter])
      (start {| store_size := 401; caps_total := true |})
    = (Ok (refs_from 1 401), s')
    /\ NoDup (refs_from 1 401)
    /\ (forall r, r ∈ refs_from 1 401
                  <-> exists i, 1 <= i <= 401
                                /\ r = {| id := Some (Py.str i) |}).
Proof.
  apply search_records_complete.
  - lia.
  - constructor; [discriminate|constructor].
  - vm_compute. discriminate.
Defined.

(** Small stores, by computation: empty, one record, one full page, one
    record more than a page. *)
Remark search_complete_on_small_stores :
  forallb (fun n => complete_on n true && complete_on n false)
    [0; 1; 200; 201]
  = true.
Proof. vm_compute. reflexivity. Qed.

(** ** Batch deleter: accounting of records and requests *)

Section DeleterAccounting.
Context {W : Type} `{HubspotClient W}.

Lemma count_calls_app f tr1 tr2 :
  count_calls f (tr1 ++ tr2) = (count_calls f tr1 + count_calls f tr2)%nat.
Proof. unfold count_calls. now rewrite List.filter_app, length_app. Qed.

Lemma individual_calls_counts object_type chunk replies :
  length replies = length chunk ->
  (successes replies
   + count_calls is_failed_individual
       (individual_calls object_type chunk replies) = length chunk)%nat
  /\ count_calls is_bulk_call (individual_calls object_type chunk replies)
     = 0%nat
  /\ count_calls is_individual_call
       (individual_calls object_type chunk replies) = length chunk
  /\ (all_ok (individual_calls object_type chunk replies) ->
      successes replies = length chunk).
Proof.
  unfold individual_calls, count_calls.
  revert replies. induction chunk as [|r chunk IH]; intros replies Hlen.
  - destruct replies; [|discriminate]. cbn. auto.
  - destruct replies as [|reply replies]; [discriminate|].
    injection Hlen as Hlen. destruct (IH replies Hlen) as (H1 & H2 & H3 & H4).
    rewrite fmap_cons. cbn [zip zip_with List.filter successes].
    unfold is_failed_individual, is_individual_call, is_bulk_call in *.
    cbn [fst snd andb].
    repeat split.
    + destruct reply; cbn [is_ok negb length]; lia.
    + exact H2.
    + cbn [length]. now rewrite H3.
    + intros Hok. apply Forall_cons in Hok as [Hr Hok]. cbn in Hr.
      rewrite Hr. rewrite (H4 Hok). reflexivity.
Qed.

(** What one chunk adds to the count, to the failed individual deletes and
    to the numbers of calls. *)
Lemma chunk_run_counts object_type chunk tr n :
  chunk_run object_type chunk tr n ->
  (n + count_calls is_failed_individual tr = length chunk)%nat
  /\ count_calls is_bulk_call tr = 1%nat
  /\ (count_calls is_individual_call tr <= length chunk)%nat
  /\ (all_ok tr -> n = length chunk /\ count_calls is_individual_call tr = 0%nat).
Proof.
  destruct 1 as [resp|e replies Hlen].
  - cbn. split; [lia|]. split; [lia|]. split; [lia|]. intros _. lia.
  - destruct (individual_calls_counts object_type chunk replies Hlen)
      as (H1 & H2 & H3 & H4).
    change ((?x :: ?l)) with ([x] ++ l).
    rewrite !count_calls_app. cbn [count_calls List.filter is_failed_individual
      is_individual_call is_bulk_call fst snd andb length].
    split; [lia|]. split; [lia|]. split; [lia|].
    intros Hok. apply Forall_app in Hok as [Hbad _].
    apply Forall_cons in Hbad as [Hbad _]. discriminate.
Qed.

Lemma chunks_run_counts object_type chunks tr n :
  chunks_run object_type chunks tr n ->
  (n + count_calls is_failed_individual tr = length (concat chunks))%nat
  /\ count_calls is_bulk_call tr = length chunks
  /\ (count_calls is_individual_call tr <= length (concat chunks))%nat
  /\ (all_ok tr ->
      n = length (concat chunks)
      /\ count_calls is_individual_call tr = 0%nat).
Proof.
  induction 1 as [|chunk chunks tr n tr' n' Hchunk _ IH].
  - cbn. split; [lia|]. split; [lia|]. split; [lia|]. intros _. lia.
  - destruct (chunk_run_counts _ _ _ _ Hchunk) as (H1 & H2 & H3 & H4).
    destruct IH as (I1 & I2 & I3 & I4).
    cbn [concat]. rewrite !count_calls_app, length_app. cbn [length].
    split; [lia|]. split; [lia|]. split; [lia|].
    intros Hok. apply Forall_app in Hok as [Hok1 Hok2].
    destruct (H4 Hok1), (I4 Hok2). lia.
Qed.

(** The run of [_delete_records] with its chunks made explicit. *)
Lemma delete_records_run_chunks object_type (records : list RecordRef)
  (s : St W) :
  exists (n : nat) s' tr,
    _delete_records object_type records s = (Ok n, s')
    /\ log s' = log s ++ tr
    /\ chunks_run object_type (chunks_of records) tr n.
Proof.
  unfold _delete_records. cbv zeta.
  destruct (delete_batches_run object_type records 100
              (Py.range_step (length records) 100) 0%nat s)
    as (n & tr & s' & Hrun & Hlog & Hchunks).
  exists n, s', tr. auto.
Qed.

Lemma chunks_of_concat (records : list RecordRef) :
  concat (chunks_of records) = records.
Proof. apply chunks_concat. lia. Qed.

Lemma chunks_of_length (records : list RecordRef) :
  length (chunks_of records) = ((length records + 99) / 100)%nat.
Proof.
  unfold chunks_of, Py.range_step.
  rewrite !length_fmap, length_seq. f_equal. lia.
Qed.

End DeleterAccounting.

(** X1. Against any store, [_delete_records] returns normally and every
    record is accounted for: the returned count plus the number of failed
    individual deletes is the number of records handed in. In particular
    the count never exceeds that number. *)
Theorem delete_records_accounts_for_every_record :
  forall (W : Type) (client : HubspotClient W) object_type
         (records : list RecordRef) (s : St W),
    exists (n : nat) s' tr,
      _delete_records object_type records s = (Ok n, s')
      /\ log s' = log s ++ tr
      /\ (n + count_calls is_failed_individual tr = length records)%nat
      /\ (n <= length records)%nat.
Proof.
  intros W client object_type records s.
  destruct (delete_records_run_chunks object_type records s)
    as (n & s' & tr & Hrun & Hlog & Hchunks).
  destruct (chunks_run_counts _ _ _ _ Hchunks) as (H1 & _).
  rewrite chunks_of_concat in H1.
  exists n, s', tr. repeat split; [exact Hrun|exact Hlog|exact H1|lia].
Qed.

(** X2. Against any store, [_delete_records] issues exactly one
    bulk-archive call per chunk of 100 records (none for an empty list) and
    at most one individual delete per record; when no call fails, no
    individual delete is issued and the count is the number of records. *)
Theorem delete_records_request_budget :
  forall (W : Type) (client : HubspotClient W) object_type
         (records : list RecordRef) (s : St W),
    exists (n : nat) s' tr,
      _delete_records object_type records s = (Ok n, s')
      /\ log s' = log s ++ tr
      /\ count_calls is_bulk_call tr = ((length records + 99) / 100)%nat
      /\ (count_calls is_individual_call tr <= length records)%nat
      /\ (all_ok tr ->
          n = length records /\ count_calls is_individual_call tr = 0%nat).
Proof.
  intros W client object_type records s.
  destruct (delete_records_run_chunks object_type records s)
    as (n & s' & tr & Hrun & Hlog & Hchunks).
  destruct (chunks_run_counts _ _ _ _ Hchunks) as (_ & H2 & H3 & H4).
  rewrite chunks_of_concat in H3, H4. rewrite chunks_of_length in H2.
  exists n, s', tr. auto.
Qed.

(** ** Full list enumerator: best effort and cursor protocol *)

Section ListWalkProtocol.
Context {W : Type} `{HubspotClient W}.



Lemma get_all_records_loop_walk fuel object_type all_records after
  (s s' : St W) r :
  _get_all_records_by_type_loop fuel object_type all_records after s = (r, s')
  ->
  exists tr,
    log s' = log s ++ tr
    /\ walk object_type after tr
    /\ (r <> OutOfFuel -> all_ok tr ->
        tr <> [] /\ Py.truthy (last_cursor after tr) = false).
Proof.
  revert all_records after s s' r.
  induction fuel as [|fuel IH]; intros all_records after s s' r Hrun.
  - injection Hrun as <- <-. exists []. rewrite app_nil_r.
    split; [reflexivity|]. split; [constructor|]. intros Hr. now destruct Hr.
  - cbn [_get_all_records_by_type_loop] in Hrun.
    unfold try_except_HubspotError, bind in Hrun. rewrite call_run in Hrun.
    fold (after_param after) in Hrun.
    set (c := Get _ _ _) in Hrun.
    destruct (request c (world s)) as [[e|resp] w]; cbn [fst snd] in Hrun.
    + injection Hrun as <- <-. exists [(c, inl e)].
      split; [reflexivity|]. split; [subst c; constructor|].
      intros _ Hok. apply Forall_cons in Hok as [Hok _]. discriminate.
    + destruct (Py.truthy (paging_next_after resp)) eqn:Hcur;
        cbn [negb] in Hrun.
      * match type of Hrun with
        | context [_get_all_records_by_type_loop fuel object_type ?acc ?a ?s1]
          => destruct (_get_all_records_by_type_loop fuel object_type acc a s1)
               as [r1 s1'] eqn:Hloop
        end.
        destruct (IH _ _ _ _ _ Hloop) as (tr & Hlog & Hwalk & Hend).
        assert (Hrs : r = r1 /\ s' = s1' \/ exists e, r1 = Raise (HubspotError e))
          by (destruct r1 as [a|[e| | | | | | |]|]; first
                [left; injection Hrun as <- <-; now split | right; eauto]).
        destruct Hrs as [[-> ->]|[e ->]].
        -- exists ((c, inr resp) :: tr). split.
           { rewrite Hlog. cbn [log]. now rewrite <- app_assoc. }
           split; [subst c; now apply walk_more|].
           intros Hr Hok. apply Forall_cons in Hok as [_ Hok].
           destruct (Hend Hr Hok) as [_ Hlast]. split; [discriminate|].
           exact Hlast.
        -- exfalso.
           match type of Hloop with
           | _get_all_records_by_type_loop _ _ ?a ?b ?c = _ =>
               destruct (get_all_records_loop_run fuel object_type a b c)
                 as (tr' & _ & Hcases)
           end.
           rewrite Hloop in Hcases. cbn [fst] in Hcases.
           destruct Hcases as [[_ [Hr|Hr]]|(? & ? & ? & _ & _ & Hr)];
             discriminate.
      * injection Hrun as <- <-. exists [(c, inr resp)].
        split; [reflexivity|]. split; [subst c; now apply walk_last|].
        intros _ _. split; [discriminate|]. cbn. exact Hcur.
Qed.

(** X4. Against any store, the walk follows the endpoint's own cursor:
    its first request asks for 100 records without cursor, every further
    request carries the cursor of the page received just before, and a
    failed request is the last one. A walk that returns without any failed
    request has reached a page without usable cursor. *)
Theorem get_all_records_by_type_follows_cursor fuel object_type (s : St W) :
  exists tr,
    log (_get_all_records_by_type fuel object_type s).2 = log s ++ tr
    /\ walk object_type None tr
    /\ ((_get_all_records_by_type fuel object_type s).1 <> OutOfFuel ->
        all_ok tr ->
        tr <> [] /\ Py.truthy (last_cursor None tr) = false).
Proof.
  unfold _get_all_records_by_type.
  destruct (_get_all_records_by_type_loop fuel object_type [] None s)
    as [r s'] eqn:Hrun.
  apply get_all_records_loop_walk in Hrun. exact Hrun.
Qed.

End ListWalkProtocol.

(** ** Which calls the operations issue *)

Section Confinement.
Context {W : Type} `{HubspotClient W}.

Lemma confined_ret {A} P (a : A) : confined (W := W) P (ret a).
Proof. intros s. exists []. cbn. now rewrite app_nil_r. Qed.

Lemma confined_raise {A} P e : confined (W := W) (A := A) P (raise e).
Proof. intros s. exists []. cbn. now rewrite app_nil_r. Qed.

Lemma confined_out_of_fuel {A} P : confined (W := W) (A := A) P out_of_fuel.
Proof. intros s. exists []. cbn. now rewrite app_nil_r. Qed.

Lemma confined_call (P : Call -> Prop) c : P c -> confined P (call c).
Proof.
  intros Hc s. exists [(c, (request c (world s)).1)]. rewrite call_run.
  cbn [snd log]. split; [reflexivity|]. repeat constructor. exact Hc.
Qed.

Lemma confined_weaken {A} (P Q : Call -> Prop) (m : M W A) :
  (forall c, P c -> Q c) -> confined P m -> confined Q m.
Proof.
  intros HPQ Hm s. destruct (Hm s) as (tr & Hlog & Hall).
  exists tr. split; [exact Hlog|].
  eapply Forall_impl; [exact Hall|]. intros entry. apply HPQ.
Qed.

Lemma confined_bind {A B} P (m : M W A) (k : A -> M W B) :
  confined P m -> (forall a, confined P (k a)) -> confined P (bind m k).
Proof.
  intros Hm Hk s. destruct (Hm s) as (tr1 & Hlog1 & Hall1).
  unfold bind. destruct (m s) as [[a|e|] s1]; cbn [fst snd] in *.
  - destruct (Hk a s1) as (tr2 & Hlog2 & Hall2).
    exists (tr1 ++ tr2). split; [|now apply Forall_app].
    rewrite Hlog2, Hlog1. now rewrite <- app_assoc.
  - exists tr1. now split.
  - exists tr1. now split.
Qed.

Lemma confined_try_except_HubspotError {A} P (m : M W A) h :
  confined P m -> (forall e, confined P (h e)) ->
  confined P (try_except_HubspotError m h).
Proof.
  intros Hm Hh s. destruct (Hm s) as (tr1 & Hlog1 & Hall1).
  unfold try_except_HubspotError.
  destruct (m s) as [[a|[e| | | | | | |]|] s1]; cbn [fst snd] in *;
    try (exists tr1; now split).
  destruct (Hh e s1) as (tr2 & Hlog2 & Hall2).
  exists (tr1 ++ tr2). split; [|now apply Forall_app].
  rewrite Hlog2, Hlog1. now rewrite <- app_assoc.
Qed.

Lemma confined_try_except_Exception {A} P (m : M W A) h :
  confined P m -> (forall e, confined P (h e)) ->
  confined P (try_except_Exception m h).
Proof.
  intros Hm Hh s. destruct (Hm s) as (tr1 & Hlog1 & Hall1).
  unfold try_except_Exception.
  destruct (m s) as [[a|e|] s1]; cbn [fst snd] in *;
    try (exists tr1; now split).
  destruct (Hh e s1) as (tr2 & Hlog2 & Hall2).
  exists (tr1 ++ tr2). split; [|now apply Forall_app].
  rewrite Hlog2, Hlog1. now rewrite <- app_assoc.
Qed.

Lemma confined_for_each {A B} P (f : B -> A -> M W B) l acc :
  (forall acc x, confined P (f acc x)) -> confined P (for_each f l acc).
Proof.
  intros Hf. revert acc. induction l as [|x l IH]; intros acc.
  - apply confined_ret.
  - cbn [for_each]. apply confined_bind; [apply Hf|]. intros acc'. apply IH.
Qed.

Lemma confined_get_all_records_loop fuel object_type all_records after :
  confined (is_list_call object_type)
    (_get_all_records_by_type_loop fuel object_type all_records after).
Proof.
  revert all_records after.
  induction fuel as [|fuel IH]; intros all_records after;
    cbn [_get_all_records_by_type_loop]; [apply confined_out_of_fuel|].
  apply confined_try_except_HubspotError; [|intros e; apply confined_ret].
  apply confined_bind; [apply confined_call; eexists; reflexivity|].
  intros response. destruct (negb _); [apply confined_ret|apply IH].
Qed.

Lemma confined_delete_records object_type records :
  confined (is_delete_call object_type) (_delete_records object_type records).
Proof.
  unfold _delete_records. apply confined_for_each. intros acc i.
  unfold delete_batch. apply confined_try_except_HubspotError.
  - apply confined_bind; [|intros; apply confined_ret].
    apply confined_call. left. eexists. reflexivity.
  - intros e. unfold delete_individually. apply confined_for_each.
    intros acc' record. unfold delete_one.
    apply confined_try_except_Exception; [|intros; apply confined_ret].
    apply confined_bind; [|intros; apply confined_ret].
    apply confined_call. right. eexists. reflexivity.
Qed.

Lemma confined_append_page P results batch_records last_id :
  confined (W := W) P (append_page results batch_records last_id).
Proof.
  revert batch_records last_id.
  induction results as [|record rest IH]; intros batch_records last_id.
  - apply confined_ret.
  - cbn [append_page]. apply confined_bind; [|intros; apply IH].
    unfold int. destruct (raw_id record) as [x|]; [|apply confined_raise].
    destruct (Py.int_of_str x); [apply confined_ret|apply confined_raise].
Qed.

Lemma confined_process_search_batch_loop fuel object_type caller_filters t
  cursor batch_records last_id after :
  confined (is_search_call object_type caller_filters)
    (_process_search_batch_loop fuel object_type
       (set_after (_create_search_payload (caller_filters ++ [id_filter t]))
          cursor)
       batch_records last_id after).
Proof.
  revert cursor batch_records last_id after.
  induction fuel as [|fuel IH]; intros cursor batch_records last_id after;
    cbn [_process_search_batch_loop];
    (destruct (negb (Py.truthy after)); [apply confined_ret|]);
    [apply confined_out_of_fuel|].
  apply confined_bind.
  { apply confined_call. exists t, after. reflexivity. }
  intros response. apply confined_bind; [apply confined_append_page|].
  intros [batch last]. destruct (LEG_CAP <=? len batch); [apply confined_ret|].
  rewrite set_after_twice. apply IH.
Qed.

Lemma confined_search_records_leg page_fuel object_type caller_filters
  all_records last_record_id :
  confined (is_search_call object_type caller_filters)
    (_search_records_leg page_fuel object_type (PyList caller_filters)
       all_records last_record_id).
Proof.
  intros s. unfold _search_records_leg, _add_id_threshold_filter.
  unfold bind at 1, ret at 1. fold (id_filter last_record_id).
  match goal with
  | |- context [try_except_HubspotError ?m ?h s] =>
      assert (Hc : confined (is_search_call object_type caller_filters)
                     (try_except_HubspotError m h))
  end; [|exact (Hc s)].
  apply confined_try_except_HubspotError; [|intros; apply confined_raise].
  apply confined_bind.
  { apply confined_call. exists last_record_id, None. reflexivity. }
  intros response.
  destruct (default 0 (total response) =? 0); [apply confined_ret|].
  apply confined_bind.
  - unfold _process_search_batch.
    apply confined_bind; [apply confined_append_page|]. intros [batch last].
    change (_create_search_payload
              (caller_filters ++ [id_filter last_record_id]))
      with (set_after
              (_create_search_payload
                 (caller_filters ++ [id_filter last_record_id])) None).
    apply confined_process_search_batch_loop.
  - intros [batch last].
    destruct (default 0 (total response) <? 10000); apply confined_ret.
Qed.

Lemma confined_search_records_loop fuel page_fuel object_type caller_filters
  all_records last_record_id :
  confined (is_search_call object_type caller_filters)
    (_search_records_loop fuel page_fuel object_type (PyList caller_filters)
       all_records last_record_id).
Proof.
  revert all_records last_record_id.
  induction fuel as [|fuel IH]; intros all_records last_record_id;
    cbn [_search_records_loop]; [apply confined_out_of_fuel|].
  apply confined_bind; [apply confined_search_records_leg|].
  intros [[[|] all] last]; [apply confined_ret|apply IH].
Qed.

(** A call followed by computations that issue only [P]-calls: the trace
    starts with that call. *)
Lemma bind_call_trace {A} (P : Call -> Prop) c (k : Response -> M W A) s :
  (forall resp, confined P (k resp)) ->
  exists reply tr',
    log (bind (call c) k s).2 = log s ++ (c, reply) :: tr'
    /\ Forall (fun entry : Call * Reply => P entry.1) tr'.
Proof.
  intros Hk. unfold bind. rewrite call_run.
  destruct (request c (world s)) as [[e|resp] w]; cbn [fst snd].
  - exists (inl e), []. split; [reflexivity|constructor].
  - destruct (Hk resp (mkSt w (log s ++ [(c, inr resp)])))
      as (tr' & Hlog & Hall).
    exists (inr resp), tr'. split; [|exact Hall].
    etransitivity; [exact Hlog|]. cbn [log]. now rewrite <- app_assoc.
Qed.

Lemma search_records_leg_head page_fuel object_type caller_filters
  all_records last_record_id (s : St W) :
  exists reply tr',
    log (_search_records_leg page_fuel object_type (PyList caller_filters)
           all_records last_record_id s).2
    = log s ++ (leg_request object_type caller_filters last_record_id, reply)
               :: tr'.
Proof.
  unfold _search_records_leg, _add_id_threshold_filter.
  unfold bind at 1, ret at 1. fold (id_filter last_record_id).
  rewrite try_reraise.
  fold (leg_request object_type caller_filters last_record_id).
  match goal with
  | |- context [bind (call ?c) ?k s] =>
      destruct (bind_call_trace (fun _ => True) c k s)
        as (reply & tr' & Hlog & _)
  end.
  - intros response.
    eapply confined_weaken;
      [|destruct (default 0 (total response) =? 0);
        [apply (confined_ret (is_search_call object_type caller_filters))|]].
    { auto. }
    apply confined_bind.
    + unfold _process_search_batch.
      apply confined_bind; [apply confined_append_page|]. intros [batch last].
      change (_create_search_payload
                (caller_filters ++ [id_filter last_record_id]))
        with (set_after
                (_create_search_payload
                   (caller_filters ++ [id_filter last_record_id])) None).
      apply confined_process_search_batch_loop.
    + intros [batch last].
      destruct (default 0 (total response) <? 10000); apply confined_ret.
  - exists reply, tr'. exact Hlog.
Qed.

(** X5. Against any store, every request of a search with a list of
    predicates goes to the search endpoint of the object type and carries
    the caller's predicates unchanged, followed by exactly one predicate
    [hs_object_id GT t], with the sort by ascending [hs_object_id] and a
    page size of 200; the first request has threshold 0 and no cursor. *)
Theorem search_records_request_shape fuel object_type caller_filters
  (s : St W) :
  exists tr,
    log (_search_records fuel object_type (PyList caller_filters) s).2
    = log s ++ tr
    /\ Forall (fun entry : Call * Reply =>
                 is_search_call object_type caller_filters entry.1) tr
    /\ (forall entry, head tr = Some entry ->
         entry.1 = leg_request object_type caller_filters 0).
Proof.
  unfold _search_records.
  destruct (confined_search_records_loop fuel fuel object_type caller_filters
              [] 0 s) as (tr & Hlog & Hall).
  exists tr. split; [exact Hlog|]. split; [exact Hall|].
  intros entry Hhead.
  destruct fuel as [|fuel].
  { cbn in Hlog. rewrite <- (app_nil_r (log s)) in Hlog at 1.
    apply app_inv_head in Hlog. subst tr. discriminate. }
  cbn [_search_records_loop] in Hlog.
  destruct (search_records_leg_head (S fuel) object_type caller_filters [] 0 s)
    as (reply & tr1 & Hleg).
  match type of Hlog with
  | context [bind ?m ?k s] =>
      assert (Hext : exists tr2, log (bind m k s).2 = log (m s).2 ++ tr2)
  end.
  { unfold bind.
    destruct (_search_records_leg (S fuel) object_type
                (PyList caller_filters) [] 0 s) as [[[[[|] all] last]|e|] s1];
      cbn [fst snd]; try (exists []; now rewrite app_nil_r).
    destruct (confined_search_records_loop fuel (S fuel) object_type
                caller_filters all last s1) as (tr2 & Hlog2 & _).
    exists tr2. exact Hlog2. }
  destruct Hext as (tr2 & Hext). rewrite Hext, Hleg, <- app_assoc in Hlog.
  apply app_inv_head in Hlog. subst tr. cbn in Hhead.
  now injection Hhead as <-.
Qed.

End Confinement.

(** ** Filtered search enumerator: what is returned *)

Section SearchResult.
Context {W : Type} `{HubspotClient W}.

Lemma process_search_batch_loop_collects fuel object_type payload
  batch_records last_id after (s s' : St W) b l :
  _process_search_batch_loop fuel object_type payload batch_records last_id
    after s = (Ok (b, l), s') ->
  exists tr, log s' = log s ++ tr /\ b = batch_records ++ collected tr.
Proof.
  revert payload batch_records last_id after s.
  induction fuel as [|fuel IH]; intros payload batch_records last_id after s;
    cbn [_process_search_batch_loop];
    (destruct (negb (Py.truthy after));
     [intros [= <- <- <-]; exists []; now rewrite !app_nil_r|]);
    [discriminate|].
  unfold bind at 1. rewrite call_run.
  set (c := PostSearch _ _).
  destruct (request c (world s)) as [[e|resp] w]; cbn [fst snd];
    [discriminate|].
  unfold bind at 1.
  destruct (append_page_run (results resp) batch_records last_id
              (mkSt w (log s ++ [(c, inr resp)]))) as [Hs1 Hb].
  destruct (append_page _ _ _ _) as [[[b1 l1]|x|] s2];
    cbn [fst snd] in Hs1, Hb; subst s2; [|discriminate..].
  specialize (Hb b1 l1 eq_refl). fold (page_refs resp) in Hb.
  destruct (LEG_CAP <=? len b1).
  - intros [= <- <- <-]. exists [(c, inr resp)]. split; [reflexivity|].
    rewrite Hb. cbn. now rewrite app_nil_r.
  - intros Hrun. destruct (IH _ _ _ _ _ Hrun) as (tr & Hlog & ->).
    exists ((c, inr resp) :: tr). split.
    + rewrite Hlog. cbn [log]. now rewrite <- app_assoc.
    + rewrite Hb. cbn. now rewrite <- app_assoc.
Qed.

Lemma process_search_batch_collects fuel object_type initial_response payload
  (s s' : St W) b l :
  _process_search_batch fuel object_type initial_response payload s
  = (Ok (b, l), s') ->
  exists tr,
    log s' = log s ++ tr /\ b = page_refs initial_response ++ collected tr.
Proof.
  unfold _process_search_batch, bind.
  destruct (append_page_run (results initial_response) [] 0 s) as [Hs1 Hb].
  destruct (append_page _ _ _ _) as [[[b1 l1]|x|] s1];
    cbn [fst snd] in Hs1, Hb; subst s1; [|discriminate..].
  specialize (Hb b1 l1 eq_refl). cbn [app] in Hb.
  fold (page_refs initial_response) in Hb. subst b1.
  apply process_search_batch_loop_collects.
Qed.

Lemma search_records_leg_collects page_fuel object_type filters all_records
  last_record_id (s s' : St W) ctl all_records' last' :
  _search_records_leg page_fuel object_type filters all_records
    last_record_id s = (Ok (ctl, all_records', last'), s') ->
  exists tr kept,
    log s' = log s ++ tr
    /\ all_records' = all_records ++ kept
    /\ kept `sublist_of` collected tr
    /\ (totals_consistent tr -> kept = collected tr).
Proof.
  unfold _search_records_leg.
  destruct filters as [q|caller]; [discriminate|].
  unfold _add_id_threshold_filter. unfold bind at 1, ret at 1.
  rewrite try_reraise. unfold bind at 1. rewrite call_run.
  set (c := PostSearch _ _).
  destruct (request c (world s)) as [[e|resp] w]; cbn [fst snd];
    [discriminate|].
  destruct (default 0 (total resp) =? 0) eqn:Htotal.
  - intros [= <- <- <- <-]. exists [(c, inr resp)], [].
    split; [reflexivity|]. split; [now rewrite app_nil_r|].
    split; [apply sublist_nil_l|].
    intros Hcons. apply Forall_cons in Hcons as [Hcons _]. cbn in Hcons.
    apply Z.eqb_eq in Htotal. cbn. unfold page_refs.
    now rewrite (Hcons Htotal).
  - unfold bind at 1.
    destruct (_process_search_batch _ _ _ _ _) as [[[b l]|x|] s1] eqn:Hbatch;
      [|discriminate..].
    apply process_search_batch_collects in Hbatch as (tr & Hlog & ->).
    intros Hrun.
    assert (E : all_records' = all_records ++ page_refs resp ++ collected tr
                /\ s' = s1)
      by (destruct (default 0 (total resp) <? 10000);
          injection Hrun as <- <- <- <-; now split).
    destruct E as [-> ->].
    exists ((c, inr resp) :: tr), (page_refs resp ++ collected tr).
    split; [rewrite Hlog; cbn [log]; now rewrite <- app_assoc|].
    split; [reflexivity|]. split; reflexivity.
Qed.

Lemma search_records_loop_collects fuel page_fuel object_type filters
  all_records last_record_id (s s' : St W) recs :
  _search_records_loop fuel page_fuel object_type filters all_records
    last_record_id s = (Ok recs, s') ->
  exists tr kept,
    log s' = log s ++ tr
    /\ recs = all_records ++ kept
    /\ kept `sublist_of` collected tr
    /\ (totals_consistent tr -> kept = collected tr).
Proof.
  revert all_records last_record_id s.
  induction fuel as [|fuel IH]; intros all_records last_record_id s;
    cbn [_search_records_loop]; [discriminate|].
  unfold bind at 1.
  destruct (_search_records_leg _ _ _ _ _ _) as [[[[ctl all1] last1]|x|] s1]
    eqn:Hleg; [|discriminate..].
  apply search_records_leg_collects in Hleg
    as (tr1 & kept1 & Hlog1 & -> & Hsub1 & Heq1).
  destruct ctl.
  - intros [= <- <-]. exists tr1, kept1. auto.
  - intros Hrun. destruct (IH _ _ _ Hrun) as (tr2 & kept2 & Hlog2 & -> & Hsub2 & Heq2).
    exists (tr1 ++ tr2), (kept1 ++ kept2).
    split; [rewrite Hlog2, Hlog1; now rewrite <- app_assoc|].
    split; [now rewrite <- app_assoc|].
    unfold collected in *. rewrite flat_map_app.
    split; [now apply sublist_app|].
    intros Hcons. apply Forall_app in Hcons as [Hc1 Hc2].
    now rewrite (Heq1 Hc1), (Heq2 Hc2).
Qed.

(** X6. Against any store: the references a search returns are references
    to records the store returned, in the order of the pages received,
    none invented and none reordered; when no reply reporting a total of 0
    carries records, the search returns the records of all the pages it
    received, exactly. *)
Theorem search_records_returns_store_pages fuel object_type filters
  (s s' : St W) recs tr :
  _search_records fuel object_type filters s = (Ok recs, s') ->
  log s' = log s ++ tr ->
  recs `sublist_of` collected tr
  /\ (totals_consistent tr -> recs = collected tr).
Proof.
  intros Hrun Hlog. unfold _search_records in Hrun.
  apply search_records_loop_collects in Hrun
    as (tr' & kept & Hlog' & -> & Hsub & Heq).
  rewrite Hlog in Hlog'. apply app_inv_head in Hlog' as <-.
  cbn [app]. auto.
Qed.

End SearchResult.

Lemma search_records_returns_store_pages_witness :
  [{| id := Some "1" |}; {| id := Some "2" |}; {| id := Some "3" |}]
    `sublist_of` collected
                   (log (_search_records 5 "contacts" (PyList [])
                           (start script_two_pages)).2)
  /\ (totals_consistent
        (log (_search_records 5 "contacts" (PyList [])
                (start script_two_pages)).2) ->
      [{| id := Some "1" |}; {| id := Some "2" |}; {| id := Some "3" |}]
      = collected
          (log (_search_records 5 "contacts" (PyList [])
                  (start script_two_pages)).2)).
Proof.
  apply (search_records_returns_store_pages (W := list Reply) 5 "contacts"
           (PyList []) (start script_two_pages)
           (_search_records 5 "contacts" (PyList [])
              (start script_two_pages)).2).
  - vm_compute. reflexivity.
  - reflexivity.
Defined.

(** ** Filtered search enumerator: what a leg hands on *)

Section LegOutcome.
Context {W : Type} `{HubspotClient W}.

(** The pagination loop on pages that hold no record: it raises nothing
    and leaves the batch and the last id as they were; it stops short of
    returning only when every one of the [fuel] requests it may issue was
    answered by a page with a usable cursor. *)
Lemma process_search_batch_loop_no_records fuel object_type payload
  batch_records last_id after (s s' : St W) r :
  _process_search_batch_loop fuel object_type payload batch_records last_id
    after s = (r, s') ->
  exists tr,
    log s' = log s ++ tr
    /\ (all_ok tr -> collected tr = [] ->
        (r = OutOfFuel /\ length tr = fuel)
        \/ r = Ok (batch_records, last_id)).
Proof.
  revert payload batch_records last_id after s.
  induction fuel as [|fuel IH]; intros payload batch_records last_id after s;
    cbn [_process_search_batch_loop];
    (destruct (negb (Py.truthy after));
     [intros [= <- <-]; exists []; rewrite app_nil_r;
      split; [reflexivity|now right]|]).
  - intros [= <- <-]. exists []. rewrite app_nil_r.
    split; [reflexivity|now left].
  - unfold bind at 1. rewrite call_run.
    set (c := PostSearch _ _).
    destruct (request c (world s)) as [[e|resp] w]; cbn [fst snd].
    { intros [= <- <-]. exists [(c, inl e)]. split; [reflexivity|].
      intros Hok. apply Forall_cons in Hok as [Hok _]. discriminate. }
    set (s1 := mkSt w _). unfold bind at 1.
    destruct (append_page_run (results resp) batch_records last_id s1)
      as [Hs1 _].
    destruct (append_page (results resp) batch_records last_id s1)
      as [rb s2] eqn:Happ. cbn [fst snd] in Hs1. subst s2.
    assert (Hempty : forall tr',
               collected ((c, inr resp) :: tr') = [] ->
               rb = Ok (batch_records, last_id) /\ collected tr' = []).
    { intros tr' Hnil. cbn in Hnil. apply app_eq_nil in Hnil as [Hp Hnil].
      apply fmap_nil_inv in Hp. rewrite Hp in Happ. cbn in Happ.
      injection Happ as <-. now split. }
    destruct rb as [[b1 l1]|x|].
    + destruct (LEG_CAP <=? len b1).
      * intros [= <- <-]. exists [(c, inr resp)]. split; [reflexivity|].
        intros _ Hnil. right. now destruct (Hempty [] Hnil) as [-> _].
      * intros Hrun. destruct (IH _ _ _ _ _ Hrun) as (tr & Hlog & Himp).
        exists ((c, inr resp) :: tr). split.
        { rewrite Hlog. subst s1. cbn [log]. now rewrite <- app_assoc. }
        intros Hok Hnil. apply Forall_cons in Hok as [_ Hok].
        destruct (Hempty tr Hnil) as [[= -> ->] Hnil'].
        destruct (Himp Hok Hnil') as [[-> Hlen] | ->]; [left|now right].
        split; [reflexivity|]. cbn [length]. now rewrite Hlen.
    + intros [= <- <-]. exists [(c, inr resp)]. split; [reflexivity|].
      intros _ Hnil. now destruct (Hempty [] Hnil) as [[=] _].
    + intros [= <- <-]. exists [(c, inr resp)]. split; [reflexivity|].
      intros _ Hnil. now destruct (Hempty [] Hnil) as [[=] _].
Qed.

Lemma process_search_batch_no_records fuel object_type initial_response
  payload (s s' : St W) r :
  _process_search_batch fuel object_type initial_response payload s
  = (r, s') ->
  exists tr,
    log s' = log s ++ tr
    /\ (all_ok tr -> page_refs initial_response ++ collected tr = [] ->
        (r = OutOfFuel /\ length tr = fuel) \/ r = Ok ([], 0)).
Proof.
  unfold _process_search_batch, bind.
  destruct (append_page_run (results initial_response) [] 0 s) as [Hs1 _].
  destruct (append_page (results initial_response) [] 0 s)
    as [rb s1] eqn:Happ. cbn [fst snd] in Hs1. subst s1.
  assert (Hempty : page_refs initial_response = [] -> rb = Ok ([], 0)).
  { intros Hp. apply fmap_nil_inv in Hp. rewrite Hp in Happ. cbn in Happ.
    now injection Happ as <-. }
  destruct rb as [[b1 l1]|x|].
  - intros Hrun.
    destruct (process_search_batch_loop_no_records _ _ _ _ _ _ _ _ _ Hrun)
      as (tr & Hlog & Himp).
    exists tr. split; [exact Hlog|]. intros Hok Hnil.
    apply app_eq_nil in Hnil as [Hp Hnil].
    specialize (Hempty Hp). injection Hempty as -> ->. now apply Himp.
  - intros [= <- <-]. exists []. rewrite app_nil_r. split; [reflexivity|].
    intros _ Hnil. apply app_eq_nil in Hnil as [Hp _].
    now specialize (Hempty Hp).
  - intros [= <- <-]. exists []. rewrite app_nil_r. split; [reflexivity|].
    intros _ Hnil. apply app_eq_nil in Hnil as [Hp _].
    now specialize (Hempty Hp).
Qed.

(** C2 (as amended). A leg whose first request is answered with a
    positive total, against any store. If all its requests succeed and no
    page holds a record, the leg raises nothing: either its pagination
    goes on for as many requests as the fuel allows, or the leg returns
    with the accumulated records unchanged and hands on the threshold 0,
    asking for another leg exactly when the reported total is at least
    [LEG_CAP]. A leg that returns has appended the records of its pages,
    in order, and hands on the numeric id of the last of them. The loop
    ends with the records of a leg that asks for no other leg, and
    otherwise starts the next leg at the threshold handed on. *)
Theorem search_leg_without_records page_fuel object_type caller_filters
  all_records last_record_id (s s' : St W) r resp rest :
  _search_records_leg page_fuel object_type (PyList caller_filters)
    all_records last_record_id s = (r, s') ->
  log s'
  = log s ++ (leg_request object_type caller_filters last_record_id, inr resp)
             :: rest ->
  0 < default 0 (total resp) ->
  (all_ok rest -> page_refs resp ++ collected rest = [] ->
   (r = OutOfFuel /\ length rest = page_fuel)
   \/ r = Ok (if default 0 (total resp) <? 10000 then Break else Continue,
              all_records, 0))
  /\ (forall ctl all_records' next_threshold,
        r = Ok (ctl, all_records', next_threshold) ->
        all_records' = all_records ++ page_refs resp ++ collected rest
        /\ is_last_id (page_refs resp ++ collected rest) next_threshold
        /\ (ctl = Break <-> default 0 (total resp) < 10000))
  /\ (forall fuel,
        _search_records_loop (S fuel) page_fuel object_type
          (PyList caller_filters) all_records last_record_id s
        = match r with
          | Ok (Break, all_records', _) => (Ok all_records', s')
          | Ok (Continue, all_records', next_threshold) =>
              _search_records_loop fuel page_fuel object_type
                (PyList caller_filters) all_records' next_threshold s'
          | Raise e => (Raise e, s')
          | OutOfFuel => (OutOfFuel, s')
          end).
Proof.
  intros Hrun Hlog Htotal.
  assert (Hloop : forall fuel,
             _search_records_loop (S fuel) page_fuel object_type
               (PyList caller_filters) all_records last_record_id s
             = match r with
               | Ok (Break, all_records', _) => (Ok all_records', s')
               | Ok (Continue, all_records', next_threshold) =>
                   _search_records_loop fuel page_fuel object_type
                     (PyList caller_filters) all_records' next_threshold s'
               | Raise e => (Raise e, s')
               | OutOfFuel => (OutOfFuel, s')
               end).
  { intros fuel. cbn [_search_records_loop]. unfold bind. rewrite Hrun.
    destruct r as [[[[|] all_records'] next_threshold]|e|]; reflexivity. }
  split; [|split; [|exact Hloop]]; clear Hloop.
  all: unfold _search_records_leg, _add_id_threshold_filter in Hrun;
    unfold bind at 1, ret at 1 in Hrun; rewrite try_reraise in Hrun;
    fold (id_filter last_record_id) in Hrun;
    fold (leg_request object_type caller_filters last_record_id) in Hrun;
    unfold bind at 1 in Hrun; rewrite call_run in Hrun;
    set (c := leg_request object_type caller_filters last_record_id) in *;
    destruct (request c (world s)) as [[e|resp0] w]; cbn [fst snd] in Hrun;
    [injection Hrun as <- <-; cbn [log] in Hlog;
     apply app_inv_head in Hlog; discriminate|];
    (destruct (default 0 (total resp0) =? 0) eqn:Ez;
     [injection Hrun as <- <-; cbn [log] in Hlog;
      apply app_inv_head in Hlog; injection Hlog as -> <-;
      apply Z.eqb_eq in Ez; lia|]);
    unfold bind at 1 in Hrun;
    match type of Hrun with
    | context [_process_search_batch ?a1 ?a2 ?a3 ?a4 ?a5] =>
        destruct (_process_search_batch a1 a2 a3 a4 a5) as [rb s2] eqn:Hbatch
    end;
    destruct (process_search_batch_no_records _ _ _ _ _ _ _ Hbatch)
      as (tr & Hlog2 & Himp);
    assert (Hs : s' = s2)
      by (destruct rb as [[b l]|x|];
          [destruct (default 0 (total resp0) <? 10000)|..];
          unfold ret in Hrun; now injection Hrun);
    subst s2; rewrite Hlog2 in Hlog; cbn [log] in Hlog;
    rewrite <- app_assoc in Hlog; apply app_inv_head in Hlog;
    injection Hlog as -> ->.
  - intros Hok Hnil.
    destruct (Himp Hok Hnil) as [[-> Hlen] | ->].
    + left. now injection Hrun as <-.
    + right. rewrite app_nil_r in Hrun. unfold ret in Hrun.
      destruct (default 0 (total resp) <? 10000); now injection Hrun as <-.
  - intros ctl all_records' next_threshold ->.
    destruct rb as [[b l]|x|];
      [|destruct (default 0 (total resp) <? 10000); discriminate..].
    pose proof (process_search_batch_last_id _ _ _ _ _ _ _ _ Hbatch) as Hlast.
    destruct (process_search_batch_collects _ _ _ _ _ _ _ _ Hbatch)
      as (tr & Hlog3 & ->).
    rewrite Hlog2 in Hlog3. apply app_inv_head in Hlog3 as <-.
    unfold ret in Hrun.
    destruct (default 0 (total resp) <? 10000) eqn:E;
      injection Hrun as <- <- <-; (split; [reflexivity|]);
      (split; [exact Hlast|]).
    + apply Z.ltb_lt in E. now split.
    + apply Z.ltb_ge in E. split; [discriminate|lia].
Qed.

End LegOutcome.

Lemma search_leg_without_records_witness :
  let run := _search_records_leg 5 "contacts" (PyList []) [] 0
               (start script_empty_pages) in
  let rest := [(PostSearch "/crm/v3/objects/contacts/search"
                  (set_after first_leg_payload (Some "200")),
                inr empty_last_page)] in
  (all_ok rest -> page_refs empty_page_with_cursor ++ collected rest = [] ->
   (run.1 = OutOfFuel /\ length rest = 5%nat)
   \/ run.1
      = Ok (if default 0 (total empty_page_with_cursor) <? 10000
            then Break else Continue, [], 0))
  /\ (forall ctl all_records' next_threshold,
        run.1 = Ok (ctl, all_records', next_threshold) ->
        all_records'
        = [] ++ page_refs empty_page_with_cursor ++ collected rest
        /\ is_last_id (page_refs empty_page_with_cursor ++ collected rest)
             next_threshold
        /\ (ctl = Break <-> default 0 (total empty_page_with_cursor) < 10000))
  /\ (forall fuel,
        _search_records_loop (S fuel) 5 "contacts" (PyList []) [] 0
          (start script_empty_pages)
        = match run.1 with
          | Ok (Break, all_records', _) => (Ok all_records', run.2)
          | Ok (Continue, all_records', next_threshold) =>
              _search_records_loop fuel 5 "contacts" (PyList [])
                all_records' next_threshold run.2
          | Raise e => (Raise e, run.2)
          | OutOfFuel => (OutOfFuel, run.2)
          end).
Proof.
  intros run rest.
  apply (search_leg_without_records (W := list Reply) 5 "contacts" [] [] 0
           (start script_empty_pages) run.2 run.1 empty_page_with_cursor
           rest).
  - apply surjective_pairing.
  - vm_compute. reflexivity.
  - reflexivity.
Defined.

(** ** Search, then delete *)

Section SearchThenDelete.
Context {W : Type} `{HubspotClient W}.

Lemma confined_search_records_any fuel page_fuel object_type filters
  all_records last_record_id :
  confined (fun c => is_search c = true)
    (_search_records_loop fuel page_fuel object_type filters all_records
       last_record_id).
Proof.
  assert (Hloop : forall fuel payload batch last after,
             confined (W := W) (fun c => is_search c = true)
               (_process_search_batch_loop fuel object_type payload batch
                  last after)).
  { clear. intros fuel. induction fuel as [|fuel IH];
      intros payload batch last after; cbn [_process_search_batch_loop];
      (destruct (negb (Py.truthy after)); [apply confined_ret|]);
      [apply confined_out_of_fuel|].
    apply confined_bind; [now apply confined_call|]. intros response.
    apply confined_bind; [apply confined_append_page|]. intros [b l].
    destruct (LEG_CAP <=? len b); [apply confined_ret|apply IH]. }
  revert all_records last_record_id.
  induction fuel as [|fuel IH]; intros all_records last_record_id;
    cbn [_search_records_loop]; [apply confined_out_of_fuel|].
  apply confined_bind.
  - unfold _search_records_leg. apply confined_bind.
    { destruct filters; [apply confined_raise|apply confined_ret]. }
    intros current_filters.
    apply confined_try_except_HubspotError; [|intros; apply confined_raise].
    apply confined_bind; [now apply confined_call|]. intros response.
    destruct (default 0 (total response) =? 0); [apply confined_ret|].
    apply confined_bind.
    + unfold _process_search_batch.
      apply confined_bind; [apply confined_append_page|]. intros [b l].
      apply Hloop.
    + intros [b l].
      destruct (default 0 (total response) <? 10000); apply confined_ret.
  - intros [[[|] all] last]; [apply confined_ret|apply IH].
Qed.

(** A search followed by the deletion of what it found. *)
Lemma search_then_delete_raises_before_deleting object_type
  (m : M W (list RecordRef)) :
  confined (fun c => is_search c = true) m ->
  raises_before_deleting
    (records <- m ;; _delete_records object_type records).
Proof.
  intros Hm s. destruct (Hm s) as (tr1 & Hlog1 & Hall1).
  unfold bind. destruct (m s) as [[records|e|] s1]; cbn [fst snd] in *.
  - destruct (delete_records_run object_type records s1)
      as (n & s' & tr2 & chunks & Hrun & Hlog2 & _).
    rewrite Hrun. cbn [fst snd]. exists (tr1 ++ tr2).
    split; [rewrite Hlog2, Hlog1; now rewrite <- app_assoc|]. discriminate.
  - exists tr1. split; [exact Hlog1|]. intros _ _.
    eapply Forall_impl; [exact Hall1|].
    intros [c r] Hc. cbn in *. now destruct c.
  - exists tr1. split; [exact Hlog1|]. discriminate.
Qed.

(** X7. [delete_by_query] and [delete_by_property] delete nothing unless
    the whole search has succeeded: against any store, if one of them
    raises -- a remote error of the search, or any other exception -- no
    bulk archive and no individual delete has been issued. *)
Theorem delete_after_search_raises_before_deleting :
  (forall fuel object_type query,
     raises_before_deleting (W := W) (delete_by_query fuel object_type query))
  /\ (forall fuel object_type property_name,
        raises_before_deleting (W := W)
          (delete_by_property fuel object_type property_name)).
Proof.
  split.
  - intros fuel object_type query s.
    destruct (search_then_delete_raises_before_deleting object_type
                (_search_records fuel object_type query)
                (confined_search_records_any _ _ _ _ _ _) s)
      as (tr & Hlog & Hraise).
    unfold delete_by_query.
    assert (E : forall s0,
               (records <- _search_records fuel object_type query ;;
                deleted_count <- _delete_records object_type records ;;
                ret deleted_count) s0
               = (records <- _search_records fuel object_type query ;;
                  _delete_records object_type records) s0).
    { intros s0. unfold bind, ret.
      destruct (_search_records fuel object_type query s0) as [[r|e|] s1];
        [|reflexivity..].
      now destruct (_delete_records object_type r s1) as [[n|e|] s2]. }
    rewrite E. exists tr. split; [exact Hlog|exact Hraise].
  - intros fuel object_type property_name. unfold delete_by_property.
    apply search_then_delete_raises_before_deleting.
    apply confined_search_records_any.
Qed.

End SearchThenDelete.

(** ** Date-range deletion: predicates and outcome map *)

Section DateRequests.
Context {W : Type} `{HubspotClient W}.



Lemma for_each_dom (f : gmap string nat -> string -> M W (gmap string nat))
  (l : list string) (acc m : gmap string nat) (s s' : St W) :
  (forall acc x s0 m0 s0',
     f acc x s0 = (Ok m0, s0') -> dom m0 = {[x]} ∪ dom acc) ->
  for_each f l acc s = (Ok m, s') ->
  dom m = dom acc ∪ list_to_set l.
Proof.
  intros Hf. revert acc s. induction l as [|x l IH]; intros acc s.
  - intros [= <- <-]. cbn. now rewrite union_empty_r_L.
  - cbn [for_each]. unfold bind at 1.
    destruct (f acc x s) as [[m1|e|] s1] eqn:Hstep; [|discriminate..].
    intros Hrun. apply IH in Hrun. rewrite Hrun.
    rewrite (Hf _ _ _ _ _ Hstep). cbn [list_to_set].
    rewrite (union_comm_L {[x]} (dom acc)). now rewrite (assoc_L (∪)).
Qed.

Lemma for_each_never_raises {A B} (f : B -> A -> M W B) (l : list A) (acc : B)
  (s : St W) :
  (forall acc x s0 e, (f acc x s0).1 <> Raise e) ->
  forall e, (for_each f l acc s).1 <> Raise e.
Proof.
  intros Hf. revert acc s. induction l as [|x l IH]; intros acc s e.
  - discriminate.
  - cbn [for_each]. unfold bind at 1.
    pose proof (Hf acc x s) as Hx.
    destruct (f acc x s) as [[acc1|e'|] s1]; cbn [fst] in *.
    + apply IH.
    + now destruct (Hx e').
    + discriminate.
Qed.

(** X9. When a date-range call returns, its outcome map has an entry for
    each object type it was asked to process (the nine built-in types when
    none was named) and for nothing else. *)
Theorem delete_by_date_criteria_outcome_keys fuel created_after modified_after
  object_types (s s' : St W) (counts : gmap string nat) :
  delete_by_date_criteria fuel created_after modified_after object_types s
  = (Ok counts, s') ->
  dom counts = list_to_set (processed_types object_types).
Proof.
  intros Hrun. unfold delete_by_date_criteria in Hrun.
  fold (processed_types object_types) in Hrun.
  apply for_each_dom in Hrun.
  - rewrite Hrun, dom_empty_L. now rewrite union_empty_l_L.
  - clear. intros acc x s0 m0 s0'. unfold bind, ret.
    destruct (_get_records_by_date_criteria _ _ _ _ _) as [[records|e|] s1];
      [|discriminate..].
    destruct (_delete_records x records s1) as [[n|e|] s2]; [|discriminate..].
    intros [= <- <-]. apply dom_insert_L.
Qed.

End DateRequests.


Lemma delete_by_date_criteria_outcome_keys_witness :
  dom (<["contacts" := 0%nat]> (<["deals" := 0%nat]> (∅ : gmap string nat)))
  = list_to_set (processed_types (Some ["deals"; "contacts"])).
Proof.
  apply (delete_by_date_criteria_outcome_keys (W := Call -> Reply) 3
           (Some march_first_eastern) None (Some ["deals"; "contacts"])
           (start accepting_server)
           (delete_by_date_criteria 3 (Some march_first_eastern) None
              (Some ["deals"; "contacts"]) (start accepting_server)).2).
  vm_compute. reflexivity.
Defined.

(** ** Deleting all records of a type, and of all types *)

Section DeleteAll.
Context {W : Type} `{HubspotClient W}.

Lemma delete_objects_by_type_never_raises fuel object_type (s : St W) e :
  (delete_objects_by_type fuel object_type s).1 <> Raise e.
Proof.
  unfold delete_objects_by_type, bind, _get_all_records_by_type.
  destruct (get_all_records_loop_run fuel object_type [] None s)
    as (tr & _ & Hcases).
  destruct (_get_all_records_by_type_loop fuel object_type [] None s)
    as [[records|x|] s1]; cbn [fst] in *.
  - destruct (delete_records_run object_type records s1)
      as (n & s' & tr2 & chunks & -> & _). discriminate.
  - destruct Hcases as [[_ [Hr|Hr]]|(? & ? & ? & _ & _ & Hr)]; discriminate.
  - discriminate.
Qed.


Lemma confined_delete_objects_by_type fuel object_type :
  confined (W := W) (fun c => is_search c = false)
    (delete_objects_by_type fuel object_type).
Proof.
  unfold delete_objects_by_type. apply confined_bind.
  - eapply confined_weaken; [|apply confined_get_all_records_loop].
    intros c [cursor ->]. reflexivity.
  - intros records. apply confined_bind; [|intros; apply confined_ret].
    eapply confined_weaken; [|apply confined_delete_records].
    intros c [[inputs ->]|[r ->]]; reflexivity.
Qed.

(** X11. Against any store, [delete_all_records] never raises and never
    uses the search endpoint; when it returns, its outcome map has an
    entry for each of the nine built-in object types and for nothing
    else. *)
Theorem delete_all_records_best_effort fuel (s : St W) :
  (forall e, (delete_all_records fuel s).1 <> Raise e)
  /\ (forall counts : gmap string nat,
        (delete_all_records fuel s).1 = Ok counts ->
        dom counts = list_to_set _get_all_object_types)
  /\ exists tr,
       log (delete_all_records fuel s).2 = log s ++ tr
       /\ Forall (fun entry : Call * Reply => is_search entry.1 = false) tr.
Proof.
  unfold delete_all_records. split; [|split].
  - apply for_each_never_raises. clear. intros acc x s0 e. unfold bind.
    pose proof (delete_objects_by_type_never_raises fuel x s0) as Hx.
    destruct (delete_objects_by_type fuel x s0) as [[n|e'|] s1];
      cbn [fst] in *; [discriminate|now destruct (Hx e')|discriminate].
  - intros counts Hrun.
    destruct (for_each _ _ _ s) as [r s'] eqn:Hfold. cbn [fst] in Hrun.
    subst r. apply for_each_dom in Hfold.
    + rewrite Hfold, dom_empty_L, union_empty_l_L.
      unfold _get_custom_object_types. now rewrite app_nil_r.
    + clear. intros acc x s0 m0 s0'. unfold bind, ret.
      destruct (delete_objects_by_type fuel x s0) as [[n|e|] s1];
        [|discriminate..].
      intros [= <- <-]. apply dom_insert_L.
  - apply (confined_for_each (fun c => is_search c = false)).
    intros acc x.
    apply confined_bind; [apply confined_delete_objects_by_type|].
    intros; apply confined_ret.
Qed.

End DeleteAll.

(** ** Reading a tabular source *)

Section CsvReading.
Context {W : Type} `{HubspotClient W}.

(** On a source that is read to its end, the call is the one on the
    rows delivered. *)
Lemma reading_delete_from_csv_complete object_type csv_file id_column
  (s : St W) :
  Reading.delete_from_csv object_type
    {| delivered := csv_file; fault := None |} id_column s
  = delete_from_csv object_type csv_file id_column s.
Proof.
  unfold Reading.delete_from_csv, delete_from_csv. cbn [delivered fault].
  destruct csv_file as [|fieldnames rows]; [reflexivity|].
  destruct (bool_decide (id_column ∈ fieldnames)); [|reflexivity].
  unfold bind.
  destruct (for_each _ _ _ s) as [[records|e|] s1]; reflexivity.
Qed.

(** X12. [delete_from_csv], with the reading of the file, raises in
    exactly these cases: the file cannot be opened or its header cannot
    be read (the exception of the reading), the file has no header
    ([TypeError]), the identifier column is missing from the header
    ([ValueError], whatever the rows hold), or the reader raises while the
    rows are read (the reader's exception). In each of them no request
    has been made. *)
Theorem delete_from_csv_raise_conditions object_type csv_file id_column
  (s : St W) :
  (forall e,
     (Reading.delete_from_csv object_type csv_file id_column s).1 = Raise e
     <-> (delivered csv_file = []
          /\ e = default TypeError (fault csv_file))
         \/ (exists fieldnames rows,
               delivered csv_file = fieldnames :: rows
               /\ (id_column ∉ fieldnames) /\ e = ValueError)
         \/ (exists fieldnames rows,
               delivered csv_file = fieldnames :: rows
               /\ (id_column ∈ fieldnames) /\ fault csv_file = Some e))
  /\ (forall e,
        (Reading.delete_from_csv object_type csv_file id_column s).1 = Raise e
        -> (Reading.delete_from_csv object_type csv_file id_column s).2 = s).
Proof.
  remember (Reading.delete_from_csv object_type csv_file id_column s)
    as run eqn:E.
  unfold Reading.delete_from_csv in E.
  destruct csv_file as [[|fieldnames rows] flt]; cbn [delivered fault] in *.
  - assert (run = (Raise (default TypeError flt), s)) as ->
      by (subst run; now destruct flt).
    cbn [fst snd]. split; [|reflexivity]. intros e. split.
    + intros [= <-]. now left.
    + intros [[_ ->]|[(? & ? & [=] & _)|(? & ? & [=] & _)]]. reflexivity.
  - destruct (decide (id_column ∈ fieldnames)) as [Hcol|Hcol].
    + rewrite bool_decide_eq_true_2 in E by exact Hcol.
      erewrite bind_ok in E.
      2:{ apply csv_rows_run. unfold dict_rows.
          apply Forall_fmap, Forall_forall.
          intros row _. now apply dict_row_has_fieldnames. }
      destruct flt as [e0|].
      * assert (run = (Raise e0, s)) as -> by (subst run; reflexivity).
        cbn [fst snd]. split; [|reflexivity]. intros e. split.
        -- intros [= <-]. right. right. now exists fieldnames, rows.
        -- intros [[[=] _]|[(f & r & [= <- <-] & Hne & _)
                           |(f & r & _ & _ & [= ->])]];
             [now destruct Hne|reflexivity].
      * unfold bind at 1, Reading.reader_end, ret at 1 in E.
        match type of E with
        | context [_delete_records ?ot ?records ?s0] =>
            destruct (delete_records_run ot records s0)
              as (n & s' & tr & chunks & Hrun & _)
        end.
        rewrite Hrun in E. subst run. cbn [fst snd].
        split; [|intros e [=]]. intros e. split; [intros [=]|].
        intros [[[=] _]|[(f & r & [= <- <-] & Hne & _)
                        |(f & r & _ & _ & [=])]].
        now destruct Hne.
    + rewrite bool_decide_eq_false_2 in E by exact Hcol. subst run.
      cbn [fst snd]. split; [|reflexivity]. intros e. split.
      * intros [= <-]. right. left. now exists fieldnames, rows.
      * intros [[[=] _]|[(f & r & _ & _ & ->)
                        |(f & r & [= <- <-] & Hin & _)]];
          [reflexivity|now destruct Hcol].
Qed.

Lemma read_csv_rows_run (has_object_type : bool)
  (ds : list (gmap string (option string))) id_column
  (acc : gmap string (list RecordRef)) (s : St W) :
  Forall (fun d => is_Some (d !! id_column)) ds ->
  (has_object_type = true ->
   Forall (fun d => is_Some (d !! "object_type")) ds) ->
  exists groups,
    for_each
      (fun (records_by_type : gmap string (list RecordRef)) row =>
         record_id <- getitem row id_column ;;
         if negb (Py.truthy record_id) then ret records_by_type
         else
           object_type <-
             (if has_object_type then
                v <- getitem row "object_type" ;;
                if Py.truthy v then ret (fmt v) else ret "contacts"
              else ret "contacts") ;;
           let records_by_type :=
             match records_by_type !! object_type with
             | None => <[object_type := []]> records_by_type
             | Some _ => records_by_type
             end in
           ret (<[object_type :=
                    default [] (records_by_type !! object_type)
                    ++ [{| id := record_id |}]]> records_by_type))
      ds acc s
    = (Ok groups, s)
    /\ forall t,
         groups !! t
         = match acc !! t,
                 flat_map
                   (fun row : gmap string (option string) =>
                      match row !! id_column with
                      | Some v =>
                          if Py.truthy v
                             && bool_decide
                                  (row_object_type has_object_type row = t)
                          then [{| id := v |}] else []
                      | None => []
                      end) ds
           with
           | None, [] => None
           | o, l => Some (default [] o ++ l)
           end.
Proof.
  intros Hid Hty. revert acc.
  induction ds as [|d ds IH]; intros acc.
  - exists acc. split; [reflexivity|]. intros t. cbn [flat_map].
    destruct (acc !! t) as [l|]; [now rewrite app_nil_r|reflexivity].
  - apply Forall_cons in Hid as [[v Hv] Hid].
    assert (Hty' : has_object_type = true ->
                   Forall (fun d => is_Some (d !! "object_type")) ds).
    { intros Ht. specialize (Hty Ht). now apply Forall_cons in Hty. }
    assert (Hd : has_object_type = true -> is_Some (d !! "object_type")).
    { intros Ht. specialize (Hty Ht). now apply Forall_cons in Hty. }
    specialize (IH Hid Hty').
    cbn [for_each flat_map]. rewrite Hv.
    unfold bind at 1, getitem at 1. rewrite Hv.
    unfold ret at 1, bind at 1.
    destruct (Py.truthy v) eqn:Htruthy; cbn [negb andb].
    2:{ unfold ret at 1. exact (IH acc). }
    assert (Hcat : exists c,
               row_object_type has_object_type d = c
               /\ (if has_object_type
                   then v0 <- getitem d "object_type" ;;
                        if Py.truthy v0 then ret (fmt v0) else ret "contacts"
                   else ret "contacts") s = (Ok c, s)).
    { unfold row_object_type. destruct has_object_type.
      - destruct (Hd eq_refl) as [c Hc]. unfold bind, getitem. rewrite Hc.
        unfold ret at 1. destruct (Py.truthy c); eauto.
      - eauto. }
    destruct Hcat as (c & Hrow & Hc). erewrite bind_ok by exact Hc.
    unfold ret at 1.
    match goal with
    | |- context [for_each _ ds ?acc' s] =>
        destruct (IH acc') as (groups & Hrun & Hgroups)
    end.
    exists groups. split; [exact Hrun|]. intros t. rewrite (Hgroups t), Hrow.
    destruct (decide (c = t)) as [<-|Hne].
    + rewrite bool_decide_eq_true_2 by reflexivity.
      rewrite lookup_insert_eq. cbn [app default].
      destruct (acc !! c) as [l|] eqn:Hacc.
      * rewrite Hacc. cbn [default]. unfold Datatypes.id.
        now rewrite <- app_assoc.
      * rewrite lookup_insert_eq. reflexivity.
    + rewrite bool_decide_eq_false_2 by exact Hne. cbn [app].
      rewrite lookup_insert_ne by exact Hne.
      destruct (acc !! c) as [l|] eqn:Hacc; [reflexivity|].
      now rewrite lookup_insert_ne by exact Hne.
Qed.

(** X13. When the identifier column exists, [_read_csv_records] makes no
    request and returns a map in which each object type that occurs is
    bound to the references of its rows, in row order, and no object type
    is bound to an empty list: a row with an empty identifier is skipped
    and a row without a category is filed under [contacts]. *)
Theorem read_csv_records_groups fieldnames rows id_column (s : St W) :
  id_column ∈ fieldnames ->
  exists groups,
    _read_csv_records (fieldnames :: rows) id_column s = (Ok groups, s)
    /\ forall t,
         match groups !! t with
         | Some l => l <> [] /\ l = csv_group fieldnames rows id_column t
         | None => csv_group fieldnames rows id_column t = []
         end.
Proof.
  intros Hcol. unfold _read_csv_records.
  rewrite bool_decide_eq_true_2 by exact Hcol.
  destruct (read_csv_rows_run (bool_decide ("object_type" ∈ fieldnames))
              (dict_rows fieldnames rows) id_column ∅ s)
    as (groups & Hrun & Hgroups).
  - unfold dict_rows. apply Forall_fmap, Forall_forall.
    intros row _. now apply dict_row_has_fieldnames.
  - intros Hty. apply bool_decide_eq_true_1 in Hty.
    unfold dict_rows. apply Forall_fmap, Forall_forall.
    intros row _. now apply dict_row_has_fieldnames.
  - exists groups. split; [exact Hrun|]. intros t.
    rewrite (Hgroups t), lookup_empty. fold (csv_group fieldnames rows id_column t).
    destruct (csv_group fieldnames rows id_column t); [reflexivity|].
    cbn [default app]. now split.
Qed.

End CsvReading.

Lemma read_csv_records_groups_witness :
  exists groups,
    _read_csv_records csv_with_category "hubspot_id" (start accepting_server)
    = (Ok groups, start accepting_server)
    /\ forall t,
         match groups !! t with
         | Some l =>
             l <> []
             /\ l = csv_group ["hubspot_id"; "object_type"]
                      [["7"; "companies"]] "hubspot_id" t
         | None =>
             csv_group ["hubspot_id"; "object_type"] [["7"; "companies"]]
               "hubspot_id" t = []
         end.
Proof.
  apply (read_csv_records_groups (W := Call -> Reply)).
  left.
Defined.
